(** * File converter: validation and conversion pipeline

    A shallow embedding of the server side of the image converter:
    [lib/constants.ts], [lib/validation.ts], [lib/converter.ts] and the
    server action [app/actions/convert.ts].

    JavaScript strings are sequences of UTF-16 code units, numbers are
    doubles (finite values are rationals, plus NaN and the two infinities),
    [undefined]/[null] are [None].  The image library (sharp) is an external
    collaborator: it is a parameter of the model, and every call made to it
    is recorded. *)

From Stdlib Require Import ZArith NArith QArith Qround Qabs List Ascii String
  Bool Lia.
From Stdlib Require Import DecimalString DecimalN.
From stdpp Require Import base option list countable gmap.

Local Open Scope N_scope.

(** ** JavaScript values *)

Module JS.

(** A UTF-16 code unit. *)
Definition code_unit : Type := N.

(** A JavaScript string: the sequence of its code units, so that
    [length] is the [.length] property. *)
Definition jsstring : Type := list code_unit.

(** String literal of the source (ASCII) as a JavaScript string. *)
Definition js (s : string) : jsstring :=
  map N_of_ascii (list_ascii_of_string s).

(** Template literal / [+] on strings. *)
Definition concat (a b : jsstring) : jsstring := (a ++ b)%list.

(** [===] on strings. *)
Definition str_eqb (a b : jsstring) : bool := bool_decide (a = b).

(** [Array.prototype.includes] on an array of strings. *)
Definition includes (arr : list jsstring) (x : jsstring) : bool :=
  existsb (str_eqb x) arr.

(** [Array.prototype.join]. *)
Fixpoint join (sep : jsstring) (arr : list jsstring) : jsstring :=
  match arr with
  | [] => []
  | [x] => x
  | x :: rest => concat x (concat sep (join sep rest))
  end.

(** [String.prototype.slice(0, n)]. *)
Definition slice0 (n : nat) (s : jsstring) : jsstring := firstn n s.

(** [String.prototype.split] with a one-character separator: the
    segments between the occurrences of the separator (never empty as a
    list: a string without separator gives one segment). *)
Fixpoint split (sep : code_unit) (s : jsstring) : list jsstring :=
  match s with
  | [] => [[]]
  | c :: rest =>
      if N.eqb c sep then [] :: split sep rest
      else match split sep rest with
           | seg :: segs => (c :: seg) :: segs
           | [] => [[c]]
           end
  end.

(** A string in a boolean context: the empty string is falsy. *)
Definition str_truthy (s : jsstring) : bool :=
  match s with [] => false | _ => true end.

(** A JavaScript number.  Every finite double is a rational, and
    comparison of doubles is comparison of these rationals. *)
Inductive number : Type :=
| NaN
| PosInf
| NegInf
| Fin (q : Q).

Definition of_N (n : N) : number := Fin (inject_Z (Z.of_N n)).
Definition of_Z (z : Z) : number := Fin (inject_Z z).

(** [a < b]: false as soon as one side is NaN. *)
Definition lt (a b : number) : bool :=
  match a, b with
  | NaN, _ | _, NaN => false
  | PosInf, _ => false
  | _, NegInf => false
  | NegInf, _ => true
  | _, PosInf => true
  | Fin x, Fin y => negb (Qle_bool y x)
  end.

(** [a > b]. *)
Definition gt (a b : number) : bool := lt b a.

(** [a === b] on numbers. *)
Definition num_eqb (a b : number) : bool :=
  match a, b with
  | PosInf, PosInf | NegInf, NegInf => true
  | Fin x, Fin y => Qeq_bool x y
  | _, _ => false
  end.

(** A number in a boolean context: [0], [-0] and [NaN] are falsy. *)
Definition num_truthy (a : number) : bool :=
  match a with
  | NaN => false
  | Fin x => negb (Qeq_bool x 0)
  | _ => true
  end.

(** An optional number in a boolean context ([undefined] is falsy). *)
Definition opt_truthy (a : option number) : bool :=
  match a with
  | None => false
  | Some x => num_truthy x
  end.

(** White space skipped by [parseInt] (WhiteSpace and LineTerminator of
    the language definition). *)
Definition is_white_space (c : code_unit) : bool :=
  existsb (N.eqb c)
    [9; 10; 11; 12; 13; 32; 160; 5760; 8192; 8193; 8194; 8195; 8196;
     8197; 8198; 8199; 8200; 8201; 8202; 8232; 8233; 8239; 8287; 12288;
     65279].

Definition is_digit (c : code_unit) : bool := (48 <=? c) && (c <=? 57).

Fixpoint skip_white_space (s : jsstring) : jsstring :=
  match s with
  | c :: rest => if is_white_space c then skip_white_space rest else s
  | [] => []
  end.

(** The longest prefix of decimal digits, read as an integer;
    [None] when there is no digit. *)
Fixpoint read_digits (acc : option N) (s : jsstring) : option N :=
  match s with
  | c :: rest =>
      if is_digit c
      then read_digits (Some (10 * default 0 acc + (c - 48))) rest
      else acc
  | [] => acc
  end.

(** The double nearest to a natural number, ties going to the even
    significand; [None] when the nearest value is beyond the largest
    double, where JavaScript has Infinity.  Every integer up to 2^53 is a
    double. *)
Definition round_double (n : N) : option N :=
  if n <? 2 ^ 53 then Some n
  else
    let e := N.log2 n - 52 in
    let q := N.shiftr n e in
    let r := N.land n (N.ones e) in
    let half := 2 ^ (e - 1) in
    let q' :=
      if (half <? r) || ((r =? half) && N.odd q) then q + 1 else q in
    let m := N.shiftl q' e in
    if 2 ^ 1024 <=? m then None else Some m.

(** [parseInt(s, 10)]: leading white space, an optional sign, then the
    longest run of decimal digits; NaN when no digit follows.  The
    result is the double nearest to the integer read, an infinity when
    the digits go beyond the doubles (the language definition lets an
    implementation ignore digits after the twentieth; V8 rounds the
    whole integer, as here).  [-0] is not told apart from [0]. *)
Definition parseInt10 (s : jsstring) : number :=
  let t := skip_white_space s in
  let '(sign, digits) :=
    match t with
    | 45 :: rest => ((-1)%Z, rest)
    | 43 :: rest => (1%Z, rest)
    | _ => (1%Z, t)
    end in
  match read_digits None digits with
  | None => NaN
  | Some n =>
      match round_double n with
      | Some m => of_Z (sign * Z.of_N m)
      | None => if (sign <? 0)%Z then NegInf else PosInf
      end
  end.

(** Decimal rendering of a natural number, as [`${n}`] gives it. *)
Definition nat_to_string (n : N) : jsstring :=
  js (NilZero.string_of_uint (N.to_uint n)).

End JS.

Import JS.


(** ** lib/constants.ts *)

Module Constants.

(** [MAX_FILE_SIZE = 10 * 1024 * 1024]. *)
Definition MAX_FILE_SIZE : N := 10 * 1024 * 1024.

Definition ALLOWED_MIME_TYPES : list jsstring :=
  [ js "image/jpeg";
    js "image/jpg";
    js "image/png";
    js "image/webp";
    js "image/avif";
    js "image/tiff";
    js "image/gif";
    js "image/svg+xml" ].

Definition MAX_FILENAME_LENGTH : N := 255.

Definition DEFAULT_QUALITY : number := of_N 90.

(** [ERROR_MESSAGES].  [MAX_FILE_SIZE / (1024 * 1024)] is the exact
    quotient 10, printed without a fraction. *)
Definition FILE_TOO_LARGE : jsstring :=
  concat (js "File size exceeds ")
    (concat (nat_to_string (MAX_FILE_SIZE / (1024 * 1024))) (js "MB limit")).
Definition INVALID_FILE_TYPE : jsstring :=
  js "Invalid file type. Please upload an image file".
Definition NO_FILE_SELECTED : jsstring := js "Please select a file to convert".
Definition CONVERSION_FAILED : jsstring :=
  js "Failed to convert file. Please try again".
Definition INVALID_FORMAT : jsstring := js "Invalid target format selected".
Definition SERVER_ERROR : jsstring :=
  js "Server error occurred. Please try again later".

End Constants.

Import Constants.

(** ** lib/types.ts *)

(** The union type [SupportedFormat]; at run time a format is the string
    [format_name f]. *)
Inductive SupportedFormat : Type :=
| jpeg | jpg | png | webp | avif | tiff | gif.

Definition all_formats : list SupportedFormat :=
  [jpeg; jpg; png; webp; avif; tiff; gif].

Definition format_name (f : SupportedFormat) : jsstring :=
  match f with
  | jpeg => js "jpeg"
  | jpg => js "jpg"
  | png => js "png"
  | webp => js "webp"
  | avif => js "avif"
  | tiff => js "tiff"
  | gif => js "gif"
  end.

(** The member of the enumeration a run-time string denotes, if any. *)
Definition format_of_string (s : jsstring) : option SupportedFormat :=
  find (fun f => str_eqb s (format_name f)) all_formats.

(** [ValidationResult]. *)
Record ValidationResult : Type := mkValidation {
  isValid : bool;
  v_error : option jsstring
}.

Definition valid : ValidationResult := mkValidation true None.
Definition invalid (msg : jsstring) : ValidationResult :=
  mkValidation false (Some msg).

(** The part of a browser [File] the server code reads. *)
Record File : Type := mkFile {
  f_name : jsstring;
  f_size : N;
  f_type : jsstring;
  f_bytes : list N
}.

(** [fit] of [ConversionOptions]. *)
Inductive Fit : Type := cover | contain | fill | inside | outside.

(** [ConversionOptions]; the format is whatever string the caller sent. *)
Record ConversionOptions : Type := mkOptions {
  o_format : jsstring;
  o_quality : option number;
  o_width : option number;
  o_height : option number;
  o_fit : option Fit
}.

(** [ConversionResponse]. *)
Record ConversionResponse : Type := mkResponse {
  success : bool;
  r_data : option (list N);
  r_fileName : option jsstring;
  r_mimeType : option jsstring;
  r_error : option jsstring;
  r_message : option jsstring
}.

(** ** lib/validation.ts *)

Module Validation.

Definition underscore : code_unit := 95.
Definition dot : code_unit := 46.

Definition is_dot (c : code_unit) : bool := N.eqb c dot.

(** The character class [[a-zA-Z0-9._-]]. *)
Definition in_class (c : code_unit) : bool :=
  ((97 <=? c) && (c <=? 122)) || ((65 <=? c) && (c <=? 90))
  || ((48 <=? c) && (c <=? 57))
  || N.eqb c 46 || N.eqb c 95 || N.eqb c 45.

(** [.replace(/[^a-zA-Z0-9._-]/g, '_')]: every code unit outside the
    class becomes an underscore. *)
Definition replace_special (s : jsstring) : jsstring :=
  map (fun c => if in_class c then c else underscore) s.

(** Length of the run of dots a string starts with (what [\.+] or
    [\.{2,}] can match there, being greedy). *)
Fixpoint dot_run (s : jsstring) : nat :=
  match s with
  | c :: rest => if is_dot c then S (dot_run rest) else O
  | [] => O
  end.

(** [.replace(/\.{2,}/g, '.')]: scanning from the left, a run of two or
    more dots is matched whole and replaced by one dot; [skip] counts the
    code units of the current match still to be consumed. *)
Fixpoint replace_dot_runs (skip : nat) (s : jsstring) : jsstring :=
  match s with
  | [] => []
  | c :: rest =>
      match skip with
      | S k => replace_dot_runs k rest
      | O =>
          let n := dot_run s in
          if (2 <=? n)%nat then dot :: replace_dot_runs (n - 1) rest
          else c :: replace_dot_runs O rest
      end
  end.

(** [.replace(/^\.+/, '')]: the leading run of dots is removed. *)
Definition strip_leading_dots (s : jsstring) : jsstring :=
  skipn (dot_run s) s.

Definition sanitizeFilename (filename : jsstring) : jsstring :=
  slice0 (N.to_nat MAX_FILENAME_LENGTH)
    (strip_leading_dots (replace_dot_runs O (replace_special filename))).

Definition validateFile (file : option File) : ValidationResult :=
  match file with
  | None => invalid NO_FILE_SELECTED
  | Some file =>
      if MAX_FILE_SIZE <? f_size file then invalid FILE_TOO_LARGE
      else if f_size file =? 0 then invalid (js "File is empty")
      else if negb (includes ALLOWED_MIME_TYPES (f_type file)) then
        invalid (concat INVALID_FILE_TYPE
                   (concat (js ". Allowed types: ")
                      (join (js ", ") ALLOWED_MIME_TYPES)))
      else if MAX_FILENAME_LENGTH <? N.of_nat (length (f_name file)) then
        invalid (concat (js "Filename too long. Maximum ")
                   (concat (nat_to_string MAX_FILENAME_LENGTH)
                      (js " characters allowed")))
      else
        let sanitizedName := sanitizeFilename (f_name file) in
        if negb (str_eqb sanitizedName (f_name file)) then
          invalid (js "Filename contains invalid characters")
        else valid
  end.

(** [quality] has type [number | undefined], so [typeof quality !==
    'number'] is false for every present value. *)
Definition typeof_is_number (q : number) : bool := true.

Definition validateQuality (quality : option number) : ValidationResult :=
  match quality with
  | None => valid
  | Some q =>
      if negb (typeof_is_number q) || lt q (of_N 1) || gt q (of_N 100)
      then invalid (js "Quality must be a number between 1 and 100")
      else valid
  end.

End Validation.

Import Validation.

(** ** Effects: calls into the image library, the server console, exceptions *)

Module Effects.

(** A thrown value: an [Error] object with its message, or anything
    else ([error instanceof Error] is false). *)
Inductive Thrown : Type :=
| ErrorObject (message : jsstring)
| NonError.

(** The options literal passed to [image.resize]. *)
Record ResizeOptions : Type := mkResize {
  rz_fit : Fit;
  withoutEnlargement : bool
}.

(** The options literal passed to the encoder of each format. *)
Inductive Encoder : Type :=
| JpegEncoder (quality : number) (progressive mozjpeg : bool)
| PngEncoder (compressionLevel : N) (progressive palette : bool)
| WebpEncoder (quality : number) (lossless nearLossless : bool) (effort : N)
| AvifEncoder (quality : number) (effort : N) (chromaSubsampling : jsstring)
| TiffEncoder (quality : number) (compression : jsstring)
| GifEncoder (colors : N).

(** The state of a sharp instance: its input and the resize configured
    on it so far. *)
Record Image : Type := mkImage {
  im_input : list N;
  im_resize : option (option number * option number * ResizeOptions)
}.

(** The external image library.  [sharp(input)] and [image.resize(...)]
    may throw while checking their arguments; [image.<format>({...})
    .toBuffer()] runs the pipeline and gives the output bytes or throws. *)
Record Sharp : Type := mkSharp {
  sharp_new : list N -> option Thrown;
  sharp_resize :
    Image -> option number -> option number -> ResizeOptions ->
    option Thrown;
  sharp_toBuffer : Image -> Encoder -> Thrown + list N
}.

(** A call made to the library. *)
Inductive Call : Type :=
| CallSharp (input : list N)
| CallResize (width height : option number) (opts : ResizeOptions)
| CallToBuffer (image : Image) (enc : Encoder).

(** What a request leaves behind: the library calls, oldest first, and
    the lines written with [console.error] on the server. *)
Record World : Type := mkWorld {
  calls : list Call;
  console : list (jsstring * Thrown)
}.

Definition empty_world : World := mkWorld [] [].

Inductive Outcome (A : Type) : Type :=
| Returned (a : A)
| Threw (t : Thrown).
Arguments Returned {A} a.
Arguments Threw {A} t.

(** A computation that may call the library, log and throw. *)
Definition M (A : Type) : Type := World -> Outcome A * World.

Definition ret {A} (a : A) : M A := fun w => (Returned a, w).

Definition bind {A B} (m : M A) (k : A -> M B) : M B :=
  fun w =>
    match m w with
    | (Returned a, w') => k a w'
    | (Threw t, w') => (Threw t, w')
    end.

Definition throw {A} (t : Thrown) : M A := fun w => (Threw t, w).

(** [try { body } catch (error) { handler }]. *)
Definition try_catch {A} (body : M A) (handler : Thrown -> M A) : M A :=
  fun w =>
    match body w with
    | (Returned a, w') => (Returned a, w')
    | (Threw t, w') => handler t w'
    end.

Definition record_call (c : Call) : M unit :=
  fun w => (Returned tt, mkWorld (calls w ++ [c]) (console w)).

(** [console.error(label, error)]. *)
Definition console_error (label : jsstring) (error : Thrown) : M unit :=
  fun w => (Returned tt, mkWorld (calls w) (console w ++ [(label, error)])).

Definition of_check (r : option Thrown) : M unit :=
  match r with
  | Some t => throw t
  | None => ret tt
  end.

Definition of_sum {A} (r : Thrown + A) : M A :=
  match r with
  | inl t => throw t
  | inr a => ret a
  end.

End Effects.

Import Effects.

Declare Scope js_scope.
Delimit Scope js_scope with js.
Notation "'let!' x ':=' c1 'in' c2" := (bind c1 (fun x => c2))
  (at level 10, x name, c1 at level 100, c2 at level 200) : js_scope.
Notation "'do!' c1 'in' c2" := (bind c1 (fun _ => c2))
  (at level 10, c1 at level 100, c2 at level 200) : js_scope.

Local Open Scope js_scope.

(** ** lib/converter.ts *)

Module Converter.

(** The values bound by
    [const { format, quality = DEFAULT_QUALITY, width, height,
             fit = 'inside' } = options]. *)
Record Destructured : Type := mkDestructured {
  d_format : jsstring;
  d_quality : number;
  d_width : option number;
  d_height : option number;
  d_fit : Fit
}.

Definition destructure (options : ConversionOptions) : Destructured :=
  mkDestructured
    (o_format options)
    (default DEFAULT_QUALITY (o_quality options))
    (o_width options)
    (o_height options)
    (default inside (o_fit options)).

(** [sharp(inputBuffer)]. *)
Definition sharp (lib : Sharp) (inputBuffer : list N) : M Image :=
  do! record_call (CallSharp inputBuffer) in
  do! of_check (sharp_new lib inputBuffer) in
  ret (mkImage inputBuffer None).

(** [image.resize(width, height, opts)]. *)
Definition resize (lib : Sharp) (image : Image)
    (width height : option number) (opts : ResizeOptions) : M Image :=
  do! record_call (CallResize width height opts) in
  do! of_check (sharp_resize lib image width height opts) in
  ret (mkImage (im_input image) (Some (width, height, opts))).

(** [image.<format>(enc).toBuffer()]. *)
Definition toBuffer (lib : Sharp) (image : Image) (enc : Encoder)
    : M (list N) :=
  do! record_call (CallToBuffer image enc) in
  of_sum (sharp_toBuffer lib image enc).

(** [error instanceof Error ? error.message : fallback]. *)
Definition message_or (error : Thrown) (fallback : jsstring) : jsstring :=
  match error with
  | ErrorObject m => m
  | NonError => fallback
  end.

Definition convertImage (lib : Sharp) (inputBuffer : list N)
    (options : ConversionOptions) : M (list N) :=
  try_catch
    (let! image := sharp lib inputBuffer in
     let '(mkDestructured format quality width height fit) :=
       destructure options in
     let! image :=
       (if opt_truthy width || opt_truthy height
        then resize lib image width height (mkResize fit true)
        else ret image) in
     match format_of_string format with
     | Some jpeg | Some jpg =>
         toBuffer lib image (JpegEncoder quality true true)
     | Some png =>
         toBuffer lib image (PngEncoder 9 true true)
     | Some webp =>
         toBuffer lib image
           (WebpEncoder quality (num_eqb quality (of_N 100))
              (gt quality (of_N 90)) 6)
     | Some avif =>
         toBuffer lib image (AvifEncoder quality 4 (js "4:4:4"))
     | Some tiff =>
         toBuffer lib image (TiffEncoder quality (js "lzw"))
     | Some gif =>
         toBuffer lib image (GifEncoder 256)
     | None =>
         throw (ErrorObject (concat (js "Unsupported format: ") format))
     end)
    (fun error =>
       do! console_error (js "Image conversion error:") error in
       throw (ErrorObject
                (concat (js "Failed to convert image: ")
                   (message_or error (js "Unknown error"))))).

(** [a || b] on strings where [a] may be [undefined]. *)
Definition or_else (a : option jsstring) (b : jsstring) : jsstring :=
  match a with
  | Some x => if str_truthy x then x else b
  | None => b
  end.

(** The object literal [extensions]. *)
Definition extensions : gmap (list N) (list N) :=
  list_to_map
    [ (js "jpeg", js ".jpg");
      (js "jpg", js ".jpg");
      (js "png", js ".png");
      (js "webp", js ".webp");
      (js "avif", js ".avif");
      (js "tiff", js ".tiff");
      (js "gif", js ".gif") ].

(** [getFileExtension(format: SupportedFormat)].  The argument is the
    run-time string; the signature restricts it to the names of the
    enumeration, which is all the table lookup is modelled for. *)
Definition getFileExtension (format : jsstring) : jsstring :=
  or_else (extensions !! format) (js ".jpg").

(** The object literal [mimeTypes]. *)
Definition mimeTypes : gmap (list N) (list N) :=
  list_to_map
    [ (js "jpeg", js "image/jpeg");
      (js "jpg", js "image/jpeg");
      (js "png", js "image/png");
      (js "webp", js "image/webp");
      (js "avif", js "image/avif");
      (js "tiff", js "image/tiff");
      (js "gif", js "image/gif") ].

Definition getMimeType (format : jsstring) : jsstring :=
  or_else (mimeTypes !! format) (js "image/jpeg").

End Converter.

Import Converter.

(** ** app/actions/convert.ts *)

Module Actions.

(** The fields of the submitted form the action reads;
    [formData.get] gives [null] for a missing field. *)
Record FormData : Type := mkFormData {
  fd_file : option File;
  fd_targetFormat : option jsstring;
  fd_quality : option jsstring;
  fd_width : option jsstring;
  fd_height : option jsstring
}.

(** [str ? parseInt(str, 10) : undefined]. *)
Definition parse_optional (str : option jsstring) : option number :=
  match str with
  | Some s => if str_truthy s then Some (parseInt10 s) else None
  | None => None
  end.

Definition failure (error : option jsstring) : ConversionResponse :=
  mkResponse false None None None error None.

(** [`${x}`] where [x] may be [undefined]. *)
Definition template (x : option jsstring) : jsstring :=
  default (js "undefined") x.

Definition convertFile (lib : Sharp) (formData : FormData)
    : M ConversionResponse :=
  try_catch
    (let file := fd_file formData in
     let targetFormat := fd_targetFormat formData in
     let qualityStr := fd_quality formData in
     let widthStr := fd_width formData in
     let heightStr := fd_height formData in
     let quality := parse_optional qualityStr in
     let width := parse_optional widthStr in
     let height := parse_optional heightStr in
     let fileValidation := validateFile file in
     if negb (isValid fileValidation) then
       ret (failure (v_error fileValidation))
     else
     let qualityValidation := validateQuality quality in
     if negb (isValid qualityValidation) then
       ret (failure (v_error qualityValidation))
     else
     match targetFormat with
     | None => ret (failure (Some INVALID_FORMAT))
     | Some targetFormat =>
         if negb (str_truthy targetFormat) then
           ret (failure (Some INVALID_FORMAT))
         else
         match file with
         | None =>
             (* [validFile.arrayBuffer()] on [null]; not reached, since
                [validateFile] rejects a missing file *)
             throw (ErrorObject
                      (js "Cannot read properties of null (reading 'arrayBuffer')"))
         | Some validFile =>
             let inputBuffer := f_bytes validFile in
             let! outputBuffer :=
               convertImage lib inputBuffer
                 (mkOptions targetFormat quality width height None) in
             let originalName := head (split dot (f_name validFile)) in
             let newExtension := getFileExtension targetFormat in
             let outputFileName :=
               concat (template originalName) newExtension in
             let mimeType := getMimeType targetFormat in
             ret (mkResponse true (Some outputBuffer) (Some outputFileName)
                    (Some mimeType) None
                    (Some (js "File converted successfully")))
         end
     end)
    (fun error =>
       do! console_error (js "Conversion error in server action:") error in
       ret (failure (Some (message_or error CONVERSION_FAILED)))).

(** One request served from a fresh state. *)
Definition serve (lib : Sharp) (formData : FormData)
    : Outcome ConversionResponse * World :=
  convertFile lib formData empty_world.

End Actions.

Import Actions.

(** ** Vocabulary of the specification *)

Module Spec.

(** The failure reasons the specification names, as the messages the
    code returns for them. *)
Definition NoFileProvided : jsstring := NO_FILE_SELECTED.
Definition FileTooLarge : jsstring := FILE_TOO_LARGE.
Definition EmptyFile : jsstring := js "File is empty".
Definition UnsupportedMediaType : jsstring :=
  js ("Invalid file type. Please upload an image file. Allowed types: "
      ++ "image/jpeg, image/jpg, image/png, image/webp, image/avif, "
      ++ "image/tiff, image/gif, image/svg+xml").
Definition QualityOutOfRange : jsstring :=
  js "Quality must be a number between 1 and 100".
Definition InvalidFormat : jsstring := INVALID_FORMAT.

(** The failure the orchestrator reports for a format string outside
    the enumeration. *)
Definition UnsupportedFormat (format : jsstring) : jsstring :=
  concat (js "Failed to convert image: Unsupported format: ") format.

Definition rejects_with (r : ValidationResult) (reason : jsstring) : Prop :=
  r = invalid reason.

Definition accepts (r : ValidationResult) : Prop := r = valid.

(** [Number.isInteger]. *)
Definition is_integer (x : number) : bool :=
  match x with
  | Fin q => Qeq_bool q (inject_Z (Qfloor q))
  | _ => false
  end.

(** "An integer in [1,100]". *)
Definition integer_in_range (x : number) : bool :=
  is_integer x && negb (lt x (of_N 1)) && negb (gt x (of_N 100)).

(** The string starts with a dot. *)
Definition starts_with_dot (s : jsstring) : bool :=
  match s with
  | c :: _ => is_dot c
  | [] => false
  end.

(** No two dots in a row. *)
Fixpoint no_dot_pair (s : jsstring) : bool :=
  match s with
  | c :: rest =>
      match rest with
      | d :: _ => negb (is_dot c && is_dot d) && no_dot_pair rest
      | [] => true
      end
  | [] => true
  end.

(** Canonical sanitized form, as the specification describes the
    result of sanitizing: only characters of [[A-Za-z0-9._-]], no
    repeated dots, no leading dot, at most the maximum length. *)
Definition canonical (s : jsstring) : bool :=
  forallb in_class s
  && no_dot_pair s
  && negb (starts_with_dot s)
  && (length s <=? N.to_nat MAX_FILENAME_LENGTH)%nat.

(** Two members of the enumeration name the same encoding. *)
Definition same_encoding (f g : SupportedFormat) : Prop :=
  f = g \/ (f = jpeg /\ g = jpg) \/ (f = jpg /\ g = jpeg).

(** The source filename with its extension stripped, in the words of the
    specification: everything up to but excluding the final dot (the
    whole name when it has no dot). *)
Fixpoint strip_extension (s : jsstring) : jsstring :=
  match s with
  | [] => []
  | c :: rest =>
      if existsb is_dot rest then c :: strip_extension rest
      else if is_dot c then []
      else s
  end.

(** Number of dots in a name. *)
Fixpoint count_dots (s : jsstring) : nat :=
  match s with
  | c :: rest => (if is_dot c then 1 else 0) + count_dots rest
  | [] => 0
  end.

(** The output filename the specification asks for. *)
Definition output_name (source : jsstring) (format : jsstring) : jsstring :=
  concat (strip_extension source) (getFileExtension format).

(** The quality an encoder literal carries, if it has one. *)
Definition encoder_quality (enc : Encoder) : option number :=
  match enc with
  | JpegEncoder q _ _ => Some q
  | WebpEncoder q _ _ _ => Some q
  | AvifEncoder q _ _ => Some q
  | TiffEncoder q _ => Some q
  | PngEncoder _ _ _ => None
  | GifEncoder _ => None
  end.

Definition is_toBuffer (c : Call) : bool :=
  match c with
  | CallToBuffer _ _ => true
  | _ => false
  end.

(** Sample files. *)
Definition empty_text_file : File :=
  mkFile (js "notes.txt") 0 (js "text/plain") [].

Definition oversized_photo : File :=
  mkFile (js "photo.jpg") (12 * 1024 * 1024) (js "image/jpeg") [].

Definition small_text_file : File :=
  mkFile (js "notes.txt") 4 (js "text/plain") [116; 101; 120; 116].

Definition small_png : File :=
  mkFile (js "photo.v2.png") 3 (js "image/png") [1; 2; 3].

Definition boundary_png : File :=
  mkFile (js "photo.png") (10 * 1024 * 1024) (js "image/png") [].

(** The encoder literal the [switch] of [convertImage] selects. *)
Definition selected_encoder (format : jsstring) (quality : number)
    : option Encoder :=
  match format_of_string format with
  | Some jpeg | Some jpg => Some (JpegEncoder quality true true)
  | Some png => Some (PngEncoder 9 true true)
  | Some webp =>
      Some (WebpEncoder quality (num_eqb quality (of_N 100))
              (gt quality (of_N 90)) 6)
  | Some avif => Some (AvifEncoder quality 4 (js "4:4:4"))
  | Some tiff => Some (TiffEncoder quality (js "lzw"))
  | Some gif => Some (GifEncoder 256)
  | None => None
  end.

(** The message [convertImage] gives the error it rethrows for a
    caught one, and that error. *)
Definition reported (t : Thrown) : jsstring :=
  concat (js "Failed to convert image: ")
    (message_or t (js "Unknown error")).

Definition wrapped (t : Thrown) : Thrown := ErrorObject (reported t).

Definition image_log : jsstring := js "Image conversion error:".
Definition action_log : jsstring :=
  js "Conversion error in server action:".

(** The checks [convertFile] makes before it reads the file: the
    message it returns, or the file and format it goes on with. *)
Definition preflight (fd : FormData) : option jsstring + File * jsstring :=
  let fileValidation := validateFile (fd_file fd) in
  let qualityValidation :=
    validateQuality (parse_optional (fd_quality fd)) in
  if negb (isValid fileValidation) then inl (v_error fileValidation)
  else if negb (isValid qualityValidation)
  then inl (v_error qualityValidation)
  else match fd_targetFormat fd, fd_file fd with
       | Some fmt, Some file =>
           if str_truthy fmt then inr (file, fmt)
           else inl (Some INVALID_FORMAT)
       | _, _ => inl (Some INVALID_FORMAT)
       end.

(** The options literal [convertFile] passes to [convertImage]. *)
Definition request_options (fd : FormData) (fmt : jsstring)
    : ConversionOptions :=
  mkOptions fmt (parse_optional (fd_quality fd))
    (parse_optional (fd_width fd)) (parse_optional (fd_height fd)) None.

(** The response of a successful conversion. *)
Definition converted (file : File) (fmt : jsstring) (out : list N)
    : ConversionResponse :=
  mkResponse true (Some out)
    (Some (concat (template (head (split dot (f_name file))))
             (getFileExtension fmt)))
    (Some (getMimeType fmt)) None
    (Some (js "File converted successfully")).

(** What sharp asks of a resize dimension: absent, or a positive
    integer. *)
Definition positive_integer (x : option number) : bool :=
  match x with
  | None => true
  | Some v => is_integer v && lt (of_N 0) v
  end.

(** A library that, like sharp, refuses to resize to a width or height
    that is not a positive integer, and otherwise returns its input. *)
Definition strict : Sharp :=
  mkSharp (fun _ => None)
    (fun _ width height _ =>
       if negb (positive_integer width)
       then Some (ErrorObject (js "Expected positive integer for width"))
       else if negb (positive_integer height)
       then Some (ErrorObject (js "Expected positive integer for height"))
       else None)
    (fun image _ => inr (im_input image)).

(** A library that accepts every input and returns it unchanged. *)
Definition permissive : Sharp :=
  mkSharp (fun _ => None) (fun _ _ _ _ => None)
    (fun image _ => inr (im_input image)).

(** Sample requests. *)
Definition request_two_dots : FormData :=
  mkFormData (Some small_png) (Some (js "webp")) (Some (js "90")) None None.

Definition request_bogus : FormData :=
  mkFormData (Some small_png) (Some (js "bogus")) None (Some (js "-5"))
    None.


Definition request_thumbnail : FormData :=
  mkFormData (Some small_png) (Some (js "jpeg")) None (Some (js "50"))
    None.

(** A library whose encoder fails with the given message. *)
Definition failing (message : jsstring) : Sharp :=
  mkSharp (fun _ => None) (fun _ _ _ _ => None)
    (fun _ _ => inl (ErrorObject message)).

End Spec.

Import Spec.

(** ** Parts of the JavaScript runtime left abstract *)

(** Two built-ins are not modelled in full: the Unicode case mapping of
    [String.prototype.toLowerCase], and [Number::toString] on a finite
    number that is not an integer of magnitude up to 2^53 (shortest
    round-trip digits, exponent notation). *)
Record Runtime : Type := mkRuntime {
  toLowerCase : jsstring -> jsstring;
  toString_other : Q -> jsstring
}.

Definition is_ascii (c : code_unit) : bool := c <? 128.

(** Lower-casing of an ASCII code unit: [A-Z] to [a-z]. *)
Definition ascii_lower (c : code_unit) : code_unit :=
  if (65 <=? c) && (c <=? 90) then c + 32 else c.

(** What is known of [toLowerCase]: on a string of ASCII code units it
    lower-cases the letters one by one. *)
Definition lowers_ascii (rt : Runtime) : Prop :=
  forall s, forallb is_ascii s = true -> toLowerCase rt s = map ascii_lower s.

(** A runtime for strings of ASCII code units and integers. *)
Definition ascii_runtime : Runtime :=
  mkRuntime (map ascii_lower) (fun _ => js "NaN").

(** ** Numbers as text *)

Module NumberText.

(** [a / b] on two non-negative integers, as the exact quotient: its only
    use divides a size below 2^53 by 2^20, which floating point does
    without rounding. *)
Definition div_N (a b : N) : number :=
  if b =? 0 then (if a =? 0 then NaN else PosInf)
  else Fin (Z.of_N a # N.succ_pos (N.pred b)).

(** [Number::toString] (radix 10).  An integer of magnitude up to 2^53
    is printed as its decimal digits, with a minus sign if negative;
    beyond, the shortest digits that read back as the same double are
    printed, which are not the digits of the integer. *)
Definition toString (rt : Runtime) (x : number) : jsstring :=
  match x with
  | NaN => js "NaN"
  | PosInf => js "Infinity"
  | NegInf => js "-Infinity"
  | Fin q =>
      if Qeq_bool q (inject_Z (Qfloor q))
         && Qle_bool (Qabs q) (inject_Z (2 ^ 53))
      then
        let z := Qfloor q in
        if (z <? 0)%Z then concat (js "-") (nat_to_string (Z.abs_N z))
        else nat_to_string (Z.to_N z)
      else toString_other rt q
  end.

(** The digits of [n] with a point before the last two, padded with
    zeros to at least three digits. *)
Definition with_two_decimals (n : N) : jsstring :=
  let m := nat_to_string n in
  let k := length m in
  let m := if (k <=? 2)%nat then (repeat 48 (3 - k) ++ m)%list else m in
  let k := length m in
  (firstn (k - 2) m ++ 46 :: skipn (k - 2) m)%list.

(** [Number.prototype.toFixed(2)]: the integer [n] nearest to [100 x]
    (the larger one on a tie), printed with two decimals; a value of
    magnitude 10^21 or more is printed as [toString] does. *)
Definition toFixed2 (rt : Runtime) (x : number) : jsstring :=
  match x with
  | NaN => js "NaN"
  | PosInf => js "Infinity"
  | NegInf => js "-Infinity"
  | Fin q =>
      let s := if negb (Qle_bool 0 q) then js "-" else [] in
      let a := Qabs q in
      if Qle_bool (inject_Z (10 ^ 21)) a
      then concat s (toString rt (Fin a))
      else
        let n := Qfloor (a * 100 + (1 # 2)) in
        concat s (with_two_decimals (Z.to_N n))
  end.

End NumberText.

(** ** lib/validation.ts: extension check *)

Module Extension.

(** The result of reading [object[key]] on an object literal: an own
    property, a property inherited from [Object.prototype], or
    [undefined]. *)
Inductive Property (A : Type) : Type :=
| Own (a : A)
| Inherited
| Undefined.
Arguments Own {A} a.
Arguments Inherited {A}.
Arguments Undefined {A}.

(** The property names every object literal inherits. *)
Definition Object_prototype_keys : list jsstring :=
  [ js "constructor"; js "__defineGetter__"; js "__defineSetter__";
    js "hasOwnProperty"; js "__lookupGetter__"; js "__lookupSetter__";
    js "isPrototypeOf"; js "propertyIsEnumerable"; js "toString";
    js "valueOf"; js "__proto__"; js "toLocaleString" ].

(** The object literal [mimeToExtension]. *)
Definition mimeToExtension : gmap (list N) (list (list N)) :=
  list_to_map
    [ (js "image/jpeg", [js "jpg"; js "jpeg"]);
      (js "image/png", [js "png"]);
      (js "image/webp", [js "webp"]);
      (js "image/avif", [js "avif"]);
      (js "image/tiff", [js "tiff"; js "tif"]);
      (js "image/gif", [js "gif"]);
      (js "image/svg+xml", [js "svg"]) ].

(** [mimeToExtension[mimeType]]. *)
Definition get_property (mimeType : jsstring) : Property (list jsstring) :=
  match mimeToExtension !! mimeType with
  | Some exts => Own exts
  | None =>
      if includes Object_prototype_keys mimeType then Inherited
      else Undefined
  end.

Definition mismatch : ValidationResult :=
  invalid (js "File extension does not match the file type").

(** [validateFileExtension].  An inherited property is truthy and has no
    [includes] method, so calling it throws a [TypeError]. *)
Definition validateFileExtension (rt : Runtime)
    (filename mimeType : jsstring) : Outcome ValidationResult :=
  let extension := option_map (toLowerCase rt) (last (split dot filename)) in
  let validExtensions := get_property mimeType in
  match extension with
  | None => Returned mismatch
  | Some extension =>
      if negb (str_truthy extension) then Returned mismatch
      else match validExtensions with
           | Undefined => Returned mismatch
           | Inherited =>
               Threw (ErrorObject
                        (js "validExtensions.includes is not a function"))
           | Own validExtensions =>
               if negb (includes validExtensions extension)
               then Returned mismatch
               else Returned valid
           end
  end.

End Extension.

(** ** lib/constants.ts: format list and quality ranges *)

Module Tables.

(** [FormatInfo]. *)
Record FormatInfo : Type := mkFormatInfo {
  value : jsstring;
  label : jsstring;
  description : jsstring;
  extension : jsstring
}.

Definition SUPPORTED_FORMATS : list FormatInfo :=
  [ mkFormatInfo (js "jpeg") (js "JPEG")
      (js "Best for photos, smaller file size") (js ".jpg");
    mkFormatInfo (js "png") (js "PNG")
      (js "Lossless, supports transparency") (js ".png");
    mkFormatInfo (js "webp") (js "WebP")
      (js "Modern format, excellent compression") (js ".webp");
    mkFormatInfo (js "avif") (js "AVIF")
      (js "Next-gen format, best compression") (js ".avif");
    mkFormatInfo (js "tiff") (js "TIFF")
      (js "High quality, large file size") (js ".tiff");
    mkFormatInfo (js "gif") (js "GIF")
      (js "Limited colors, supports animation") (js ".gif") ].

(** [QUALITY_RANGES]: [min] and [max] for each format. *)
Definition QUALITY_RANGES : gmap (list N) (N * N) :=
  list_to_map
    [ (js "jpeg", (1, 100));
      (js "jpg", (1, 100));
      (js "webp", (1, 100));
      (js "avif", (1, 100));
      (js "png", (1, 9));
      (js "tiff", (1, 100));
      (js "gif", (1, 100)) ].

End Tables.

(** ** app/actions/convert.ts: file information *)

Module Info.

(** The [data] of the response of [getFileInfo]. *)
Record FileData : Type := mkFileData {
  name : jsstring;
  size : N;
  type : jsstring;
  sizeInMB : jsstring
}.

Record FileInfoResponse : Type := mkInfo {
  info_success : bool;
  info_data : option FileData;
  info_error : option jsstring
}.

(** [getFileInfo].  Nothing in the [try] block throws in this model, so
    the [catch] block is left out. *)
Definition getFileInfo (rt : Runtime) (formData : FormData)
    : FileInfoResponse :=
  let file := fd_file formData in
  let validation := validateFile file in
  if negb (isValid validation) then mkInfo false None (v_error validation)
  else
    match file with
    | None =>
        (* [validFile.name] on [null]; not reached, since
           [validateFile] rejects a missing file *)
        mkInfo false None
          (Some (js "Cannot read properties of null (reading 'name')"))
    | Some validFile =>
        mkInfo true
          (Some (mkFileData (f_name validFile) (f_size validFile)
                   (f_type validFile)
                   (NumberText.toFixed2 rt
                      (NumberText.div_N (f_size validFile) (1024 * 1024)))))
          None
    end.

End Info.

(** ** Forms that differ in one field *)

(** The form with its [quality] field replaced. *)
Definition with_quality (fd : FormData) (quality : option jsstring)
    : FormData :=
  mkFormData (fd_file fd) (fd_targetFormat fd) quality (fd_width fd)
    (fd_height fd).

(** The formats whose encoder literal takes no quality. *)
Definition without_quality (f : SupportedFormat) : bool :=
  match f with
  | png | gif => true
  | _ => false
  end.

(** The extensions [getFileExtension] gives. *)
Definition output_extensions : list jsstring :=
  [js ".jpg"; js ".png"; js ".webp"; js ".avif"; js ".tiff"; js ".gif"].

(** ** The page and its components *)

Module Client.

(** [ResizeOptions] of [components/ImageResizer.tsx]. *)
Record ResizeOptions : Type := mkResizeOptions {
  enabled : bool;
  width : option number;
  height : option number;
  maintainAspectRatio : bool
}.

(** [isNaN] on a number. *)
Definition isNaN (x : number) : bool :=
  match x with
  | NaN => true
  | _ => false
  end.

(** The handlers of [ImageResizer]: the options handed to
    [onOptionsChange], or [None] when the handler does not call it.  The
    local text of the two inputs is display only and left out. *)
Definition handleEnabledToggle (options : ResizeOptions) : ResizeOptions :=
  mkResizeOptions (negb (enabled options)) (width options) (height options)
    (maintainAspectRatio options).

Definition handleWidthChange (options : ResizeOptions) (value : jsstring)
    : option ResizeOptions :=
  let numValue := parseInt10 value in
  if negb (isNaN numValue) && gt numValue (of_N 0) then
    Some (mkResizeOptions (enabled options) (Some numValue) (height options)
            (maintainAspectRatio options))
  else if str_eqb value [] then
    Some (mkResizeOptions (enabled options) None (height options)
            (maintainAspectRatio options))
  else None.

Definition handleHeightChange (options : ResizeOptions) (value : jsstring)
    : option ResizeOptions :=
  let numValue := parseInt10 value in
  if negb (isNaN numValue) && gt numValue (of_N 0) then
    Some (mkResizeOptions (enabled options) (width options) (Some numValue)
            (maintainAspectRatio options))
  else if str_eqb value [] then
    Some (mkResizeOptions (enabled options) (width options) None
            (maintainAspectRatio options))
  else None.

Definition handleAspectRatioToggle (options : ResizeOptions)
    : ResizeOptions :=
  mkResizeOptions (enabled options) (width options) (height options)
    (negb (maintainAspectRatio options)).

(** [handleFile] of [FileUpload]: the error it shows, or the file it
    hands to [onFileSelect]. *)
Definition handleFile (file : File) : jsstring + File :=
  let validation := validateFile (Some file) in
  if negb (isValid validation)
  then inl (or_else (v_error validation) (js "Invalid file"))
  else inr file.

(** The state of the page that [handleConvert] reads. *)
Record PageState : Type := mkPageState {
  selectedFile : option File;
  targetFormat : option jsstring;
  quality : number;
  resizeOptions : ResizeOptions
}.

(** The form [handleConvert] builds; [maintainAspectRatio] is appended
    too, a field the server action never reads. *)
Definition build_form (rt : Runtime) (file : File) (format : jsstring)
    (st : PageState) : FormData :=
  let ro := resizeOptions st in
  mkFormData (Some file) (Some format)
    (Some (NumberText.toString rt (quality st)))
    (if enabled ro && opt_truthy (width ro)
     then option_map (NumberText.toString rt) (width ro) else None)
    (if enabled ro && opt_truthy (height ro)
     then option_map (NumberText.toString rt) (height ro) else None).

(** What [handleConvert] ends with: an error shown, or a download of
    the converted bytes under the returned name and type. *)
Inductive ConvertOutcome : Type :=
| ShowError (message : jsstring)
| Download (data : list N) (fileName mimeType : jsstring).

(** [handleConvert], with the server action run against the image
    library [lib].  The progress flag, the success text and the reset
    timer only drive the display and are left out. *)
Definition handleConvert (rt : Runtime) (lib : Sharp) (st : PageState)
    : ConvertOutcome * World :=
  match selectedFile st with
  | None => (ShowError (js "Please select a file to convert"), empty_world)
  | Some file =>
      match targetFormat st with
      | None => (ShowError (js "Please select a target format"), empty_world)
      | Some format =>
          if negb (str_truthy format)
          then (ShowError (js "Please select a target format"), empty_world)
          else
            match serve lib (build_form rt file format st) with
            | (Returned response, w) =>
                match success response, r_data response,
                      r_fileName response, r_mimeType response with
                | true, Some data, Some fileName, Some mimeType =>
                    if str_truthy fileName && str_truthy mimeType
                    then (Download data fileName mimeType, w)
                    else (ShowError
                            (or_else (r_error response)
                               (js "Conversion failed")), w)
                | _, _, _, _ =>
                    (ShowError
                       (or_else (r_error response) (js "Conversion failed")),
                     w)
                end
            | (Threw err, w) =>
                (ShowError
                   (message_or err (js "An unexpected error occurred")), w)
            end
      end
  end.

End Client.

(** A dimension the page can come to hold: absent, a positive integer,
    or Infinity. *)
Definition stored_dimension (x : option number) : bool :=
  match x with
  | None => true
  | Some PosInf => true
  | Some v => is_integer v && lt (of_N 0) v
  end.

(** Both dimensions of the resize options are such. *)
Definition dimensions_ok (options : Client.ResizeOptions) : bool :=
  stored_dimension (Client.width options)
  && stored_dimension (Client.height options).

(** A text of 310 digits: a one followed by 309 zeros. *)
Definition long_digits : jsstring := 49 :: repeat 48 309.

(** A dimension that is absent or a positive integer up to 2^53, the
    range in which integers are exact. *)
Definition safe_dimension (x : option number) : Prop :=
  match x with
  | None => True
  | Some v => exists k : N, 0 < k <= 2 ^ 53 /\ v = of_N k
  end.

(** The resize options the page starts with. *)
Definition initial_resize : Client.ResizeOptions :=
  Client.mkResizeOptions false None None true.

(** Sample page states and forms. *)
Definition sample_page : Client.PageState :=
  Client.mkPageState (Some small_png) (Some (js "webp")) (of_N 80)
    (Client.mkResizeOptions true (Some (of_N 50)) None true).

Definition sample_page_resize_off : Client.PageState :=
  Client.mkPageState (Some small_png) (Some (js "webp")) (of_N 80)
    (Client.mkResizeOptions false (Some (of_N 50)) None true).

Definition request_webp_lossless : FormData :=
  mkFormData (Some small_png) (Some (js "webp")) (Some (js "100")) None None.

Definition request_quality_150 : FormData :=
  mkFormData (Some small_png) (Some (js "png")) (Some (js "150")) None None.

Definition request_quality_text : FormData :=
  mkFormData (Some small_png) (Some (js "jpeg")) (Some (js "abc")) None None.

Definition request_to_png : FormData :=
  mkFormData (Some small_png) (Some (js "png")) None None None.

(** * Properties *)

(** ** Validator *)

Section Validator.

Lemma includes_In (arr : list jsstring) (x : jsstring) :
  includes arr x = true <-> In x arr.
Proof.
  unfold includes. rewrite existsb_exists. split.
  - intros (y & Hy & Heq). unfold str_eqb in Heq.
    apply bool_decide_eq_true in Heq. now subst.
  - intros H. exists x. split; [assumption|].
    unfold str_eqb. now apply bool_decide_eq_true.
Qed.

Lemma includes_not_In (arr : list jsstring) (x : jsstring) :
  includes arr x = false <-> ~ In x arr.
Proof.
  rewrite <- includes_In. destruct (includes arr x); split; intros H;
    try reflexivity; try discriminate; try (intros ?; discriminate).
  exfalso. now apply H.
Qed.

Lemma unsupported_media_type_message :
  concat INVALID_FILE_TYPE
    (concat (js ". Allowed types: ") (join (js ", ") ALLOWED_MIME_TYPES))
  = UnsupportedMediaType.
Proof. vm_compute. reflexivity. Qed.

Lemma lt_Fin_one (q : Q) : lt (Fin q) (of_N 1) = true <-> (q < 1)%Q.
Proof.
  unfold lt, of_N. simpl. rewrite negb_true_iff.
  rewrite <- not_true_iff_false, Qle_bool_iff. split.
  - apply Qnot_le_lt.
  - apply Qlt_not_le.
Qed.

Lemma gt_Fin_hundred (q : Q) : gt (Fin q) (of_N 100) = true <-> (100 < q)%Q.
Proof.
  unfold gt, lt, of_N. simpl. rewrite negb_true_iff.
  rewrite <- not_true_iff_false, Qle_bool_iff. split.
  - apply Qnot_le_lt.
  - apply Qlt_not_le.
Qed.

Lemma validateQuality_Fin (q : Q) :
  validateQuality (Some (Fin q)) =
  if lt (Fin q) (of_N 1) || gt (Fin q) (of_N 100)
  then invalid QualityOutOfRange else valid.
Proof. reflexivity. Qed.

(** C1, as amended: an absent quality is accepted; a present finite
    quality is accepted exactly when it lies between 1 and 100, whether
    or not it is an integer; everything below 1 or above 100, the
    infinities included, is rejected with [QualityOutOfRange]; every
    integer from 1 to 100 is accepted. *)
Theorem validateQuality_range :
  accepts (validateQuality None) /\
  (forall q : Q, (1 <= q)%Q -> (q <= 100)%Q ->
     accepts (validateQuality (Some (Fin q)))) /\
  (forall q : Q, (q < 1)%Q \/ (100 < q)%Q ->
     rejects_with (validateQuality (Some (Fin q))) QualityOutOfRange) /\
  rejects_with (validateQuality (Some PosInf)) QualityOutOfRange /\
  rejects_with (validateQuality (Some NegInf)) QualityOutOfRange /\
  (forall n : N, (1 <= n)%N -> (n <= 100)%N ->
     accepts (validateQuality (Some (of_N n)))).
Proof.
  assert (Hin : forall q : Q, (1 <= q)%Q -> (q <= 100)%Q ->
                accepts (validateQuality (Some (Fin q)))).
  { intros q H1 H100. unfold accepts. rewrite validateQuality_Fin.
    destruct (lt (Fin q) (of_N 1)) eqn:Hlt.
    - apply lt_Fin_one in Hlt. exfalso. now apply (Qlt_not_le _ _ Hlt).
    - destruct (gt (Fin q) (of_N 100)) eqn:Hgt; [|reflexivity].
      apply gt_Fin_hundred in Hgt. exfalso.
      now apply (Qlt_not_le _ _ Hgt). }
  repeat split; try reflexivity; try exact Hin.
  - intros q Hout. unfold rejects_with. rewrite validateQuality_Fin.
    destruct Hout as [Hlo|Hhi].
    + apply lt_Fin_one in Hlo. now rewrite Hlo.
    + apply gt_Fin_hundred in Hhi. rewrite Hhi.
      now rewrite orb_true_r.
  - intros n H1 H100. apply Hin.
    + change 1%Q with (inject_Z 1). rewrite <- Zle_Qle. lia.
    + change 100%Q with (inject_Z 100). rewrite <- Zle_Qle. lia.
Qed.

Lemma validateQuality_range_witness :
  accepts (validateQuality (Some (Fin (7 # 2)))) /\
  rejects_with (validateQuality (Some (Fin 101))) QualityOutOfRange /\
  accepts (validateQuality (Some (of_N 100))).
Proof.
  destruct validateQuality_range as (_ & Hin & Hout & _ & _ & Hint).
  split; [|split].
  - apply Hin; unfold Qle; simpl; lia.
  - apply Hout. right. unfold Qlt; simpl; lia.
  - apply Hint; lia.
Defined.

(** C1, refuted as stated: 3.5 is present, is not an integer in
    [1,100], and is not rejected. *)
Lemma validateQuality_accepts_fraction :
  integer_in_range (Fin (7 # 2)) = false /\
  accepts (validateQuality (Some (Fin (7 # 2)))) /\
  ~ rejects_with (validateQuality (Some (Fin (7 # 2)))) QualityOutOfRange.
Proof.
  split; [reflexivity|]. split; [reflexivity|].
  unfold rejects_with. discriminate.
Qed.

(** The verdicts [validateFile] can give for a present file. *)
Lemma validateFile_cases (f : File) :
  let r := validateFile (Some f) in
  (MAX_FILE_SIZE < f_size f /\ r = invalid FileTooLarge)
  \/ (f_size f <= MAX_FILE_SIZE /\ f_size f = 0 /\ r = invalid EmptyFile)
  \/ (0 < f_size f <= MAX_FILE_SIZE /\
      includes ALLOWED_MIME_TYPES (f_type f) = false /\
      r = invalid UnsupportedMediaType)
  \/ (0 < f_size f <= MAX_FILE_SIZE /\
      includes ALLOWED_MIME_TYPES (f_type f) = true /\
      (r = invalid (js "Filename too long. Maximum 255 characters allowed")
       \/ r = invalid (js "Filename contains invalid characters")
       \/ r = valid)).
Proof.
  cbv zeta. unfold validateFile.
  destruct (MAX_FILE_SIZE <? f_size f) eqn:Hbig.
  { left. apply N.ltb_lt in Hbig. now split. }
  apply N.ltb_ge in Hbig. right.
  destruct (f_size f =? 0) eqn:Hzero.
  { left. apply N.eqb_eq in Hzero. now repeat split. }
  apply N.eqb_neq in Hzero. right.
  assert (0 < f_size f <= MAX_FILE_SIZE) by lia.
  destruct (includes ALLOWED_MIME_TYPES (f_type f)) eqn:Hty; simpl.
  - right. repeat split; try tauto.
    destruct (MAX_FILENAME_LENGTH <? N.of_nat (length (f_name f))).
    + left. reflexivity.
    + destruct (negb (str_eqb (sanitizeFilename (f_name f)) (f_name f)));
        [right; left | right; right]; reflexivity.
  - left. repeat split; tauto.
Qed.

(** C2: the checks are made in sequence.  A file whose declared size
    exceeds 10 MiB is rejected with [FileTooLarge] and one whose declared
    size is 0 with [EmptyFile], whatever its content (the bytes are not
    looked at); a file whose media type is not in the allow-list is
    always rejected, and with [UnsupportedMediaType] when it comes to the
    media-type check, that is once its size has passed the two size
    checks; a file whose media type is in the allow-list is never
    rejected with [UnsupportedMediaType]. *)
Theorem validateFile_size_and_type (f : File) :
  (MAX_FILE_SIZE < f_size f ->
     rejects_with (validateFile (Some f)) FileTooLarge) /\
  (f_size f = 0 -> rejects_with (validateFile (Some f)) EmptyFile) /\
  (~ In (f_type f) ALLOWED_MIME_TYPES ->
     isValid (validateFile (Some f)) = false /\
     (0 < f_size f <= MAX_FILE_SIZE ->
        rejects_with (validateFile (Some f)) UnsupportedMediaType)) /\
  (In (f_type f) ALLOWED_MIME_TYPES ->
     ~ rejects_with (validateFile (Some f)) UnsupportedMediaType).
Proof.
  unfold rejects_with.
  pose proof (validateFile_cases f) as Hc. cbv zeta in Hc.
  repeat split.
  - intros Hbig.
    destruct Hc as [(_ & ->)|[(? & _)|[((_ & ?) & _)|((_ & ?) & _)]]];
      [reflexivity | lia..].
  - intros Hzero.
    destruct Hc as [(? & _)|[(_ & _ & ->)|[((? & _) & _)|((? & _) & _)]]];
      [unfold MAX_FILE_SIZE in *; lia | reflexivity | lia..].
  - destruct Hc as [(_ & ->)|[(_ & _ & ->)|[(_ & _ & ->)|(_ & Hty & _)]]];
      try reflexivity.
    apply includes_In in Hty. contradiction.
  - intros Hsize.
    destruct Hc as [(? & _)|[(_ & ? & _)|[(_ & _ & ->)|(_ & Hty & _)]]];
      [lia | lia | reflexivity |].
    apply includes_In in Hty. contradiction.
  - intros Hin. apply includes_In in Hin.
    destruct Hc as [(_ & ->)|[(_ & _ & ->)|[(_ & Hty & _)|(_ & _ & Hr)]]].
    + intros Heq. vm_compute in Heq. discriminate.
    + intros Heq. vm_compute in Heq. discriminate.
    + congruence.
    + destruct Hr as [-> | [-> | ->]]; intros Heq; vm_compute in Heq;
        discriminate.
Qed.

Lemma validateFile_size_and_type_witness :
  rejects_with (validateFile (Some oversized_photo)) FileTooLarge /\
  rejects_with (validateFile (Some empty_text_file)) EmptyFile /\
  rejects_with (validateFile (Some small_text_file)) UnsupportedMediaType /\
  ~ rejects_with (validateFile (Some small_png)) UnsupportedMediaType.
Proof.
  split; [|split; [|split]].
  - apply (validateFile_size_and_type oversized_photo). vm_compute.
    reflexivity.
  - apply (validateFile_size_and_type empty_text_file). reflexivity.
  - apply (validateFile_size_and_type small_text_file).
    + apply includes_not_In. vm_compute. reflexivity.
    + vm_compute. split; [reflexivity | discriminate].
  - apply (validateFile_size_and_type small_png).
    apply includes_In. vm_compute. reflexivity.
Defined.

(** The size checks come before the media-type check: an empty file of
    a type outside the allow-list is rejected with [EmptyFile]. *)
Lemma empty_file_of_unlisted_type :
  ~ In (f_type empty_text_file) ALLOWED_MIME_TYPES /\
  rejects_with (validateFile (Some empty_text_file)) EmptyFile /\
  ~ rejects_with (validateFile (Some empty_text_file)) UnsupportedMediaType.
Proof.
  split; [|split].
  - apply includes_not_In. vm_compute. reflexivity.
  - reflexivity.
  - unfold rejects_with. intros Heq. vm_compute in Heq. discriminate.
Qed.

(** C10: a file of exactly [10 * 1024 * 1024] bytes is not rejected as
    too large (the comparison with the ceiling is strict), and it is
    accepted when its type is in the allow-list and its name is in
    canonical form. *)
Theorem validateFile_boundary_size (f : File) :
  f_size f = 10 * 1024 * 1024 ->
  ~ rejects_with (validateFile (Some f)) FileTooLarge /\
  v_error (validateFile (Some f)) <> Some FileTooLarge /\
  (In (f_type f) ALLOWED_MIME_TYPES ->
   sanitizeFilename (f_name f) = f_name f ->
   (length (f_name f) <= 255)%nat ->
   accepts (validateFile (Some f))).
Proof.
  intros Hsize.
  assert (Hnot : v_error (validateFile (Some f)) <> Some FileTooLarge).
  { pose proof (validateFile_cases f) as Hc. cbv zeta in Hc.
    destruct Hc as [(Hbig & _)|[(_ & Hz & _)|[(_ & _ & ->)|(_ & _ & Hr)]]].
    - rewrite Hsize in Hbig. unfold MAX_FILE_SIZE in Hbig. lia.
    - rewrite Hsize in Hz. lia.
    - intros Heq. vm_compute in Heq. discriminate.
    - destruct Hr as [-> | [-> | ->]]; intros Heq; vm_compute in Heq;
        discriminate. }
  split; [|split].
  - unfold rejects_with. intros Heq. apply Hnot. now rewrite Heq.
  - exact Hnot.
  - intros Hin Hname Hlen. apply includes_In in Hin.
    unfold accepts, validateFile. rewrite Hsize.
    change (MAX_FILE_SIZE <? 10 * 1024 * 1024) with false.
    change (10 * 1024 * 1024 =? 0) with false.
    rewrite Hin. simpl negb. cbv iota.
    replace (MAX_FILENAME_LENGTH <? N.of_nat (length (f_name f)))
      with false.
    2:{ symmetry. apply N.ltb_ge. unfold MAX_FILENAME_LENGTH. lia. }
    rewrite Hname. unfold str_eqb. rewrite bool_decide_eq_true_2 by reflexivity.
    reflexivity.
Qed.

Lemma validateFile_boundary_size_witness :
  f_size boundary_png = MAX_FILE_SIZE /\
  ~ rejects_with (validateFile (Some boundary_png)) FileTooLarge /\
  accepts (validateFile (Some boundary_png)).
Proof.
  assert (Hsize : f_size boundary_png = 10 * 1024 * 1024) by reflexivity.
  destruct (validateFile_boundary_size boundary_png Hsize) as (H1 & _ & H3).
  split; [reflexivity|]. split; [exact H1|].
  apply H3.
  - apply includes_In. vm_compute. reflexivity.
  - vm_compute. reflexivity.
  - simpl. lia.
Defined.

End Validator.

(** ** Format tables *)

Section FormatTables.

Lemma format_of_string_name (f : SupportedFormat) :
  format_of_string (format_name f) = Some f.
Proof. destruct f; vm_compute; reflexivity. Qed.

Lemma format_of_string_Some (s : jsstring) (f : SupportedFormat) :
  format_of_string s = Some f -> s = format_name f.
Proof.
  unfold format_of_string. intros H.
  apply find_some in H. destruct H as [_ H].
  unfold str_eqb in H. now apply bool_decide_eq_true in H.
Qed.

Lemma format_of_string_None (s : jsstring) :
  format_of_string s = None <-> forall f, s <> format_name f.
Proof.
  split.
  - intros H f ->. rewrite format_of_string_name in H. discriminate.
  - intros H. destruct (format_of_string s) as [f|] eqn:Hf; [|reflexivity].
    apply format_of_string_Some in Hf. now apply H in Hf.
Qed.

Lemma same_encoding_dec (f g : SupportedFormat) :
  {same_encoding f g} + {~ same_encoding f g}.
Proof.
  unfold same_encoding.
  destruct f, g;
    solve [ left; auto
          | right; intros [H|[[H1 H2]|[H1 H2]]]; discriminate ].
Qed.

(** C8, as amended: both tables are total on the enumeration and have
    no other key, every member has one extension and one MIME type, and
    two members share an extension (or a MIME type) exactly when they
    are equal or are the two names [jpeg] and [jpg] of the same
    encoding. *)
Theorem format_tables_total (f g : SupportedFormat) :
  (exists e, extensions !! format_name f = Some e /\
             getFileExtension (format_name f) = e) /\
  (exists m, mimeTypes !! format_name f = Some m /\
             getMimeType (format_name f) = m) /\
  size extensions = length all_formats /\
  size mimeTypes = length all_formats /\
  (getFileExtension (format_name f) = getFileExtension (format_name g)
   <-> same_encoding f g) /\
  (getMimeType (format_name f) = getMimeType (format_name g)
   <-> same_encoding f g).
Proof.
  split; [|split; [|split; [|split; [|split]]]].
  - destruct f; eexists; split; vm_compute; reflexivity.
  - destruct f; eexists; split; vm_compute; reflexivity.
  - vm_compute. reflexivity.
  - vm_compute. reflexivity.
  - destruct (same_encoding_dec f g) as [Hs|Hn].
    + split; [intros _; exact Hs|]. intros _.
      destruct Hs as [->|[[-> ->]|[-> ->]]]; reflexivity.
    + split; [|intros Hs; contradiction].
      intros Heq. exfalso. apply Hn. unfold same_encoding.
      destruct f, g; vm_compute in Heq; try discriminate; auto.
  - destruct (same_encoding_dec f g) as [Hs|Hn].
    + split; [intros _; exact Hs|]. intros _.
      destruct Hs as [->|[[-> ->]|[-> ->]]]; reflexivity.
    + split; [|intros Hs; contradiction].
      intros Heq. exfalso. apply Hn. unfold same_encoding.
      destruct f, g; vm_compute in Heq; try discriminate; auto.
Qed.

(** C8, refuted as stated: the mapping is not one-to-one, [jpeg] and
    [jpg] are different members with the same extension and the same
    MIME type. *)
Lemma jpeg_and_jpg_share_entries :
  jpeg <> jpg /\
  format_name jpeg <> format_name jpg /\
  getFileExtension (format_name jpeg) = getFileExtension (format_name jpg) /\
  getMimeType (format_name jpeg) = getMimeType (format_name jpg).
Proof.
  split; [discriminate|]. split; [|split; reflexivity].
  vm_compute. discriminate.
Qed.

End FormatTables.

(** ** Filename sanitization *)

Section Sanitize.

Lemma is_dot_eq (c : code_unit) : is_dot c = true -> c = dot.
Proof. unfold is_dot. apply N.eqb_eq. Qed.

Lemma no_dot_pair_cons (c : code_unit) (s : jsstring) :
  no_dot_pair (c :: s)
  = negb (is_dot c && starts_with_dot s) && no_dot_pair s.
Proof.
  destruct s as [|d s]; simpl; [|reflexivity].
  now rewrite andb_false_r.
Qed.

Lemma dot_run_zero (s : jsstring) :
  starts_with_dot s = false -> dot_run s = O.
Proof. destruct s as [|c s]; simpl; [reflexivity|]. now intros ->. Qed.

(** What follows the leading run of dots does not start with a dot. *)
Lemma skip_dot_run_head (s : jsstring) :
  starts_with_dot (skipn (dot_run s) s) = false.
Proof.
  induction s as [|c s IH]; simpl; [reflexivity|].
  destruct (is_dot c) eqn:Hc; simpl; [exact IH | exact Hc].
Qed.

(** Inside a match, the remaining code units are consumed one by one. *)
Lemma replace_dot_runs_skip (k : nat) (s : jsstring) :
  replace_dot_runs k s = replace_dot_runs O (skipn k s).
Proof.
  revert s. induction k as [|k IH]; intros s; [reflexivity|].
  destruct s as [|c s]; [reflexivity|]. simpl skipn. rewrite <- IH.
  reflexivity.
Qed.

(** One step of the scan: a dot stands for the whole run it starts. *)
Lemma replace_dot_runs_step (c : code_unit) (rest : jsstring) :
  replace_dot_runs O (c :: rest)
  = if is_dot c
    then dot :: replace_dot_runs O (skipn (dot_run rest) rest)
    else c :: replace_dot_runs O rest.
Proof.
  cbn [replace_dot_runs dot_run].
  destruct (is_dot c) eqn:Hc; [|reflexivity].
  destruct (dot_run rest) as [|n] eqn:Hn.
  - simpl. now rewrite (is_dot_eq c Hc).
  - simpl (2 <=? S (S n))%nat. cbv iota.
    rewrite replace_dot_runs_skip. do 2 f_equal.
    all: try lia.
Qed.

(** Induction on the scan, which jumps over a run of dots. *)
Lemma replace_dot_runs_ind (P : jsstring -> jsstring -> Prop) :
  P [] [] ->
  (forall c rest out,
      is_dot c = true ->
      P (skipn (dot_run rest) rest) out -> P (c :: rest) (dot :: out)) ->
  (forall c rest out,
      is_dot c = false -> P rest out -> P (c :: rest) (c :: out)) ->
  forall s, P s (replace_dot_runs O s).
Proof.
  intros Hnil Hdot Hother s.
  remember (length s) as n eqn:Hn.
  assert (Hle : (length s <= n)%nat) by lia. clear Hn.
  revert s Hle. induction n as [|n IH]; intros s Hle.
  - destruct s; [exact Hnil | simpl in Hle; lia].
  - destruct s as [|c rest]; [exact Hnil|].
    rewrite replace_dot_runs_step.
    destruct (is_dot c) eqn:Hc.
    + apply Hdot; [exact Hc|]. apply IH.
      rewrite length_skipn. simpl in Hle. lia.
    + apply Hother; [exact Hc|]. apply IH. simpl in Hle. lia.
Qed.

Lemma replace_dot_runs_no_pair (s : jsstring) :
  starts_with_dot (replace_dot_runs O s) = starts_with_dot s /\
  no_dot_pair (replace_dot_runs O s) = true.
Proof.
  apply (replace_dot_runs_ind
           (fun s out => starts_with_dot out = starts_with_dot s /\
                         no_dot_pair out = true)).
  - split; reflexivity.
  - intros c rest out Hc [Hstart Hpair].
    rewrite skip_dot_run_head in Hstart.
    split; [simpl; now rewrite Hc|].
    rewrite no_dot_pair_cons, Hstart, Hpair. now rewrite andb_false_r.
  - intros c rest out Hc [_ Hpair].
    split; [reflexivity|].
    now rewrite no_dot_pair_cons, Hc, Hpair.
Qed.

Lemma forallb_skipn (p : code_unit -> bool) (k : nat) (s : jsstring) :
  forallb p s = true -> forallb p (skipn k s) = true.
Proof.
  revert s. induction k as [|k IH]; intros s; [trivial|].
  destruct s as [|c s]; [trivial|]. simpl.
  intros H. apply andb_true_iff in H. now apply IH.
Qed.

Lemma forallb_firstn (p : code_unit -> bool) (k : nat) (s : jsstring) :
  forallb p s = true -> forallb p (firstn k s) = true.
Proof.
  revert s. induction k as [|k IH]; intros s; [trivial|].
  destruct s as [|c s]; [trivial|]. simpl.
  intros H. apply andb_true_iff in H. destruct H as [Hc Hs].
  now rewrite Hc, IH.
Qed.

Lemma replace_dot_runs_in_class (s : jsstring) :
  forallb in_class s = true ->
  forallb in_class (replace_dot_runs O s) = true.
Proof.
  apply (replace_dot_runs_ind
           (fun s out => forallb in_class s = true ->
                         forallb in_class out = true)).
  - trivial.
  - intros c rest out _ IH H. simpl in H. apply andb_true_iff in H.
    simpl. apply IH. apply forallb_skipn. tauto.
  - intros c rest out _ IH H. simpl in H. apply andb_true_iff in H.
    simpl. destruct H as [-> H]. now apply IH.
Qed.

Lemma replace_dot_runs_fixed (s : jsstring) :
  no_dot_pair s = true -> replace_dot_runs O s = s.
Proof.
  induction s as [|c rest IH]; [reflexivity|].
  rewrite no_dot_pair_cons, replace_dot_runs_step.
  intros H. apply andb_true_iff in H. destruct H as [H Hrest].
  rewrite negb_true_iff in H.
  destruct (is_dot c) eqn:Hc.
  - simpl in H. rewrite (dot_run_zero rest H).
    change (skipn O rest) with rest.
    rewrite (IH Hrest). now rewrite (is_dot_eq c Hc).
  - now rewrite (IH Hrest).
Qed.

Lemma replace_special_in_class (s : jsstring) :
  forallb in_class (replace_special s) = true.
Proof.
  induction s as [|c s IH]; [reflexivity|]. simpl.
  rewrite IH. destruct (in_class c) eqn:Hc; [now rewrite Hc | reflexivity].
Qed.

Lemma replace_special_fixed (s : jsstring) :
  forallb in_class s = true -> replace_special s = s.
Proof.
  induction s as [|c s IH]; [reflexivity|]. simpl.
  intros H. apply andb_true_iff in H. destruct H as [-> H].
  now rewrite (IH H).
Qed.

Lemma no_dot_pair_tail (c : code_unit) (s : jsstring) :
  no_dot_pair (c :: s) = true -> no_dot_pair s = true.
Proof.
  rewrite no_dot_pair_cons. intros H. apply andb_true_iff in H. tauto.
Qed.

Lemma no_dot_pair_skipn (k : nat) (s : jsstring) :
  no_dot_pair s = true -> no_dot_pair (skipn k s) = true.
Proof.
  revert s. induction k as [|k IH]; intros s; [trivial|].
  destruct s as [|c s]; [trivial|]. intros H.
  apply IH. exact (no_dot_pair_tail c s H).
Qed.

Lemma starts_with_dot_firstn (k : nat) (s : jsstring) :
  starts_with_dot (firstn k s) = true -> starts_with_dot s = true.
Proof. destruct k, s; simpl; trivial; discriminate. Qed.

Lemma no_dot_pair_firstn (k : nat) (s : jsstring) :
  no_dot_pair s = true -> no_dot_pair (firstn k s) = true.
Proof.
  revert s. induction k as [|k IH]; intros s; [trivial|].
  destruct s as [|c s]; [trivial|].
  rewrite no_dot_pair_cons. intros H.
  apply andb_true_iff in H. destruct H as [H Hs].
  simpl firstn. rewrite no_dot_pair_cons, (IH s Hs), andb_true_r.
  rewrite negb_true_iff in *.
  destruct (is_dot c); [|reflexivity]. simpl in *.
  destruct (starts_with_dot (firstn k s)) eqn:Hk; [|reflexivity].
  apply starts_with_dot_firstn in Hk. congruence.
Qed.

(** Sanitizing always gives a name in canonical form. *)
Lemma sanitizeFilename_canonical (name : jsstring) :
  canonical (sanitizeFilename name) = true.
Proof.
  unfold canonical, sanitizeFilename, slice0, strip_leading_dots.
  set (a := replace_special name).
  set (b := replace_dot_runs O a).
  pose proof (replace_special_in_class name) as Ha. fold a in Ha.
  pose proof (replace_dot_runs_in_class a Ha) as Hb. fold b in Hb.
  destruct (replace_dot_runs_no_pair a) as [_ Hpair]. fold b in Hpair.
  repeat (apply andb_true_iff; split).
  - apply forallb_firstn, forallb_skipn, Hb.
  - apply no_dot_pair_firstn, no_dot_pair_skipn, Hpair.
  - apply negb_true_iff.
    destruct (starts_with_dot (firstn _ (skipn (dot_run b) b))) eqn:Hs;
      [|reflexivity].
    apply starts_with_dot_firstn in Hs.
    now rewrite skip_dot_run_head in Hs.
  - apply Nat.leb_le. apply firstn_le_length.
Qed.

(** A name in canonical form is left unchanged. *)
Lemma sanitizeFilename_fixed (name : jsstring) :
  canonical name = true -> sanitizeFilename name = name.
Proof.
  unfold canonical. intros H.
  repeat (apply andb_true_iff in H; destruct H as [H ?]).
  match goal with Hn : negb _ = true |- _ => apply negb_true_iff in Hn end.
  match goal with Hl : (_ <=? _)%nat = true |- _ => apply Nat.leb_le in Hl end.
  unfold sanitizeFilename, slice0, strip_leading_dots.
  rewrite (replace_special_fixed name) by assumption.
  rewrite (replace_dot_runs_fixed name) by assumption.
  rewrite (dot_run_zero name) by assumption.
  change (skipn O name) with name. now apply firstn_all2.
Qed.

(** C7: sanitizing is idempotent on every filename, and a filename
    already in canonical sanitized form is returned unchanged (and only
    such names are). *)
Theorem sanitizeFilename_idempotent :
  (forall name, sanitizeFilename (sanitizeFilename name)
                = sanitizeFilename name) /\
  (forall name, canonical name = true -> sanitizeFilename name = name) /\
  (forall name, sanitizeFilename name = name -> canonical name = true).
Proof.
  split; [|split].
  - intros name. apply sanitizeFilename_fixed, sanitizeFilename_canonical.
  - apply sanitizeFilename_fixed.
  - intros name Hfix. rewrite <- Hfix. apply sanitizeFilename_canonical.
Qed.

Lemma sanitizeFilename_idempotent_witness :
  sanitizeFilename (js "photo.v2.png") = js "photo.v2.png" /\
  sanitizeFilename (sanitizeFilename (js "../../etc/passwd.png"))
  = sanitizeFilename (js "../../etc/passwd.png").
Proof.
  destruct sanitizeFilename_idempotent as (Hidem & Hfix & _).
  split.
  - apply Hfix. vm_compute. reflexivity.
  - apply Hidem.
Defined.

End Sanitize.

(** ** Output filename *)

Section OutputName.

Lemma split_no_dot (s : jsstring) :
  existsb is_dot s = false -> split dot s = [s].
Proof.
  induction s as [|c s IH]; [reflexivity|]. simpl.
  intros H. apply orb_false_iff in H. destruct H as [Hc Hs].
  unfold is_dot in Hc. rewrite Hc, (IH Hs). reflexivity.
Qed.

Lemma existsb_count_dots (s : jsstring) :
  existsb is_dot s = true <-> (1 <= count_dots s)%nat.
Proof.
  induction s as [|c s IH]; simpl.
  - split; [discriminate | lia].
  - destruct (is_dot c); simpl; [split; [lia | reflexivity] | exact IH].
Qed.

(** The first segment has no dot. *)
Lemma first_segment_no_dot (s p : jsstring) :
  head (split dot s) = Some p -> existsb is_dot p = false.
Proof.
  revert p. induction s as [|c s IH]; intros p; simpl.
  - now intros [= <-].
  - destruct (c =? dot) eqn:Hc; [now intros [= <-]|].
    destruct (split dot s) as [|seg segs]; simpl.
    + intros [= <-]. simpl. unfold is_dot. now rewrite Hc.
    + intros [= <-]. simpl. unfold is_dot at 1. rewrite Hc. simpl.
      now apply IH.
Qed.

Lemma strip_extension_keeps_dot (s : jsstring) :
  (2 <= count_dots s)%nat -> existsb is_dot (strip_extension s) = true.
Proof.
  induction s as [|c s IH]; simpl; [lia|].
  destruct (existsb is_dot s) eqn:Hs.
  - simpl. destruct (is_dot c); simpl; [reflexivity|]. exact IH.
  - intros H. exfalso.
    assert (count_dots s = O).
    { destruct (count_dots s) eqn:Hn; [reflexivity|].
      assert (Ht : existsb is_dot s = true)
        by (apply existsb_count_dots; lia).
      congruence. }
    destruct (is_dot c); simpl in H; lia.
Qed.

Lemma first_segment_strip_extension (s : jsstring) :
  (count_dots s <= 1)%nat -> head (split dot s) = Some (strip_extension s).
Proof.
  induction s as [|c s IH]; simpl; [reflexivity|].
  unfold is_dot at 1 3. destruct (c =? dot) eqn:Hc; simpl.
  - intros H. destruct (existsb is_dot s) eqn:Hs; [|reflexivity].
    apply existsb_count_dots in Hs. lia.
  - intros H. destruct (existsb is_dot s) eqn:Hs.
    + specialize (IH H). destruct (split dot s) as [|seg segs];
        [discriminate|]. simpl in *. congruence.
    + now rewrite (split_no_dot s Hs).
Qed.

(** The name the server gives agrees with the specification exactly
    when the source name has at most one dot. *)
Lemma first_segment_agrees_iff (s : jsstring) :
  head (split dot s) = Some (strip_extension s) <-> (count_dots s <= 1)%nat.
Proof.
  split; [|apply first_segment_strip_extension].
  intros H. apply first_segment_no_dot in H.
  destruct (le_lt_dec (count_dots s) 1) as [Hle|Hgt]; [exact Hle|].
  rewrite strip_extension_keeps_dot in H by lia. discriminate.
Qed.
End OutputName.

(** ** Conversion pipeline *)

Ltac effects :=
  cbv beta iota zeta delta
    [sharp resize toBuffer try_catch bind ret throw of_check of_sum
     record_call console_error];
  cbn [calls console im_input im_resize
       d_format d_quality d_width d_height d_fit].

Section Pipeline.

Variable lib : Sharp.

(** A run of [convertImage], call by call. *)
Lemma convertImage_run (buf : list N) (o : ConversionOptions) (w : World) :
  let d := destructure o in
  let ro := mkResize (d_fit d) true in
  let resizing := opt_truthy (d_width d) || opt_truthy (d_height d) in
  let im0 := mkImage buf None in
  let im1 :=
    if resizing then mkImage buf (Some (d_width d, d_height d, ro))
    else im0 in
  let c1 :=
    CallSharp buf ::
    (if resizing then [CallResize (d_width d) (d_height d) ro] else []) in
  let fails t cs :=
    (Threw (wrapped t),
     mkWorld (calls w ++ cs) (console w ++ [(image_log, t)])) in
  convertImage lib buf o w =
  match sharp_new lib buf with
  | Some t => fails t [CallSharp buf]
  | None =>
      match (if resizing
             then sharp_resize lib im0 (d_width d) (d_height d) ro
             else None) with
      | Some t => fails t c1
      | None =>
          match selected_encoder (d_format d) (d_quality d) with
          | None =>
              fails (ErrorObject
                       (concat (js "Unsupported format: ") (d_format d))) c1
          | Some enc =>
              match sharp_toBuffer lib im1 enc with
              | inl t => fails t (c1 ++ [CallToBuffer im1 enc])
              | inr out =>
                  (Returned out,
                   mkWorld (calls w ++ c1 ++ [CallToBuffer im1 enc])
                     (console w))
              end
          end
      end
  end.
Proof.
  cbv zeta.
  unfold selected_encoder, wrapped, reported, image_log.
  destruct (destructure o) as [format quality width height fit] eqn:Hd.
  unfold convertImage. rewrite Hd. effects.
  destruct (sharp_new lib buf) as [t|]; effects; [reflexivity|].
  destruct (opt_truthy width || opt_truthy height); effects;
    [destruct (sharp_resize lib _ width height _) as [t|]; effects;
       rewrite <- ?app_assoc; [reflexivity|] |];
    (destruct (format_of_string format) as [[]|]; effects;
     repeat match goal with
       | |- context [sharp_toBuffer lib ?i ?e] =>
           destruct (sharp_toBuffer lib i e)
       end;
     effects; rewrite <- ?app_assoc; reflexivity).
Qed.

(** A request stopped by the checks leaves no trace. *)
Lemma serve_rejected (fd : FormData) (e : option jsstring) :
  preflight fd = inl e ->
  serve lib fd = (Returned (failure e), empty_world).
Proof.
  unfold preflight, serve, convertFile. cbv zeta. effects.
  destruct (negb (isValid (validateFile (fd_file fd)))) eqn:Hvf.
  { now intros [= <-]. }
  destruct (negb (isValid (validateQuality _))) eqn:Hvq.
  { now intros [= <-]. }
  destruct (fd_targetFormat fd) as [fmt|]; [|now intros [= <-]].
  destruct (fd_file fd) as [file|] eqn:Hfile.
  - destruct (str_truthy fmt); [discriminate | now intros [= <-]].
  - exfalso. simpl in Hvf. discriminate.
Qed.

(** A request that passes the checks is handed to [convertImage]. *)
Lemma serve_converting (fd : FormData) (file : File) (fmt : jsstring) :
  preflight fd = inr (file, fmt) ->
  serve lib fd =
  match convertImage lib (f_bytes file) (request_options fd fmt)
          empty_world with
  | (Returned out, w) => (Returned (converted file fmt out), w)
  | (Threw t, w) =>
      (Returned (failure (Some (message_or t CONVERSION_FAILED))),
       mkWorld (calls w) (console w ++ [(action_log, t)]))
  end.
Proof.
  unfold preflight, serve, convertFile, request_options, converted, action_log.
  cbv zeta.
  destruct (negb (isValid (validateFile (fd_file fd)))); [discriminate|].
  destruct (negb (isValid (validateQuality _))); [discriminate|].
  destruct (fd_targetFormat fd) as [fmt'|]; [|discriminate].
  destruct (fd_file fd) as [file'|]; [|discriminate].
  destruct (str_truthy fmt'); [|discriminate].
  intros [= -> ->]. cbn [negb].
  unfold try_catch at 1. unfold bind at 1.
  destruct (convertImage lib (f_bytes file) _ empty_world) as [[out|t] w];
    reflexivity.
Qed.

Lemma preflight_passed (fd : FormData) (file : File) (fmt : jsstring) :
  preflight fd = inr (file, fmt) <->
  fd_file fd = Some file /\
  isValid (validateFile (Some file)) = true /\
  isValid (validateQuality (parse_optional (fd_quality fd))) = true /\
  fd_targetFormat fd = Some fmt /\
  str_truthy fmt = true.
Proof.
  unfold preflight. cbv zeta. split.
  - destruct (isValid (validateFile (fd_file fd))) eqn:Hvf;
      [|discriminate].
    destruct (isValid (validateQuality _)) eqn:Hvq; [|discriminate].
    cbn [negb].
    destruct (fd_targetFormat fd) as [fmt'|]; [|discriminate].
    destruct (fd_file fd) as [file'|]; [|discriminate].
    destruct (str_truthy fmt') eqn:Ht; [|discriminate].
    intros [= -> ->]. repeat split; assumption.
  - intros (-> & -> & -> & -> & ->). reflexivity.
Qed.

(** [convertFile] catches everything: it always returns a response. *)
Lemma serve_returns (fd : FormData) :
  exists resp w, serve lib fd = (Returned resp, w).
Proof.
  destruct (preflight fd) as [e|[file fmt]] eqn:Hg.
  - rewrite (serve_rejected fd e Hg). eauto.
  - rewrite (serve_converting fd file fmt Hg).
    destruct (convertImage lib _ _ _) as [[out|t] w]; eauto.
Qed.

(** A request that passes the checks, call by call. *)
Lemma serve_passed (fd : FormData) (file : File) (fmt : jsstring) :
  preflight fd = inr (file, fmt) ->
  let buf := f_bytes file in
  let quality := default DEFAULT_QUALITY (parse_optional (fd_quality fd)) in
  let width := parse_optional (fd_width fd) in
  let height := parse_optional (fd_height fd) in
  let ro := mkResize inside true in
  let resizing := opt_truthy width || opt_truthy height in
  let im1 :=
    if resizing then mkImage buf (Some (width, height, ro))
    else mkImage buf None in
  let c1 :=
    CallSharp buf :: (if resizing then [CallResize width height ro] else [])
  in
  let fails t cs :=
    (Returned (failure (Some (reported t))),
     mkWorld cs [(image_log, t); (action_log, wrapped t)]) in
  serve lib fd =
  match sharp_new lib buf with
  | Some t => fails t [CallSharp buf]
  | None =>
      match (if resizing
             then sharp_resize lib (mkImage buf None) width height ro
             else None) with
      | Some t => fails t c1
      | None =>
          match selected_encoder fmt quality with
          | None =>
              fails (ErrorObject (concat (js "Unsupported format: ") fmt)) c1
          | Some enc =>
              match sharp_toBuffer lib im1 enc with
              | inl t => fails t (c1 ++ [CallToBuffer im1 enc])
              | inr out =>
                  (Returned (converted file fmt out),
                   mkWorld (c1 ++ [CallToBuffer im1 enc]) [])
              end
          end
      end
  end.
Proof.
  intros Hg. cbv zeta.
  rewrite (serve_converting fd file fmt Hg), convertImage_run.
  cbv zeta. unfold request_options, destructure.
  cbn [o_format o_quality o_width o_height o_fit
       d_format d_quality d_width d_height d_fit default
       calls console empty_world app].
  destruct (sharp_new lib (f_bytes file)) as [t|]; [reflexivity|].
  destruct (if opt_truthy _ || opt_truthy _ then _ else _) as [t|];
    [reflexivity|].
  destruct (selected_encoder fmt _) as [enc|]; [|reflexivity].
  destruct (sharp_toBuffer lib _ enc) as [t|out]; reflexivity.
Qed.

Lemma selected_encoder_None (fmt : jsstring) (quality : number) :
  selected_encoder fmt quality = None <-> format_of_string fmt = None.
Proof.
  unfold selected_encoder.
  destruct (format_of_string fmt) as [[]|]; split; congruence.
Qed.

Lemma selected_encoder_quality (fmt : jsstring) (quality : number)
    (enc : Encoder) (q : number) :
  selected_encoder fmt quality = Some enc ->
  encoder_quality enc = Some q -> q = quality.
Proof.
  unfold selected_encoder.
  destruct (format_of_string fmt) as [[]|]; intros [= <-]; simpl;
    congruence.
Qed.

(** Whatever [convertImage] caught is what the caller is told: the
    response of a failed conversion carries the message of the thrown
    error behind a fixed prefix, and both catch blocks log it. *)
Lemma caught_error_reported (fd : FormData) (resp : ConversionResponse)
    (w : World) (t : Thrown) :
  serve lib fd = (Returned resp, w) ->
  In (image_log, t) (console w) ->
  resp = failure (Some (reported t)) /\
  console w = [(image_log, t); (action_log, wrapped t)].
Proof.
  destruct (preflight fd) as [e|[file fmt]] eqn:Hg.
  - rewrite (serve_rejected fd e Hg). intros [= <- <-] [].
  - rewrite (serve_passed fd file fmt Hg). cbv zeta.
    assert (Hlog : forall t', In (image_log, t)
                     [(image_log, t'); (action_log, wrapped t')] -> t = t').
    { intros t' [Heq|[Heq|[]]].
      - now injection Heq as ->.
      - exfalso. apply (f_equal fst) in Heq. vm_compute in Heq.
        discriminate. }
    destruct (sharp_new lib _) as [t1|].
    { intros [= <- <-] Hin. cbn [console] in *.
      now rewrite (Hlog _ Hin). }
    destruct (if opt_truthy _ || opt_truthy _ then _ else _) as [t2|].
    { intros [= <- <-] Hin. cbn [console] in *.
      now rewrite (Hlog _ Hin). }
    destruct (selected_encoder fmt _) as [enc|].
    + destruct (sharp_toBuffer lib _ enc) as [t3|out].
      * intros [= <- <-] Hin. cbn [console] in *.
        now rewrite (Hlog _ Hin).
      * intros [= <- <-] [].
    + intros [= <- <-] Hin. cbn [console] in *.
      now rewrite (Hlog _ Hin).
Qed.

(** The name and type given to a converted file. *)
Lemma converted_file_name (fd : FormData) (resp : ConversionResponse)
    (w : World) :
  serve lib fd = (Returned resp, w) ->
  success resp = true ->
  exists file fmt out,
    preflight fd = inr (file, fmt) /\
    is_Some (format_of_string fmt) /\
    resp = converted file fmt out /\
    r_fileName resp =
      Some (concat (template (head (split dot (f_name file))))
              (getFileExtension fmt)).
Proof.
  destruct (preflight fd) as [e|[file fmt]] eqn:Hg.
  - rewrite (serve_rejected fd e Hg). intros [= <- <-]. discriminate.
  - rewrite (serve_passed fd file fmt Hg). cbv zeta.
    destruct (sharp_new lib _) as [t1|];
      [intros [= <- <-]; discriminate|].
    destruct (if opt_truthy _ || opt_truthy _ then _ else _) as [t2|];
      [intros [= <- <-]; discriminate|].
    destruct (selected_encoder fmt _) as [enc|] eqn:Henc;
      [|intros [= <- <-]; discriminate].
    destruct (sharp_toBuffer lib _ enc) as [t3|out];
      [intros [= <- <-]; discriminate|].
    intros [= <- <-] _. exists file, fmt, out.
    repeat split.
    destruct (format_of_string fmt) eqn:Hf; [eauto|].
    rewrite (proj2 (selected_encoder_None fmt _) Hf) in Henc.
    discriminate.
Qed.

(** A request whose target format is not a member of the enumeration
    is never converted: the response is a failure and the library is
    never asked to encode.  Once the file and quality checks have passed,
    a missing or empty format is rejected with [InvalidFormat] before any
    call to the library; any other string reaches [convertImage], which
    creates the sharp instance on the bytes of the file and configures
    the resize of the request before its [switch] rejects the format. *)
Lemma unsupported_format_never_encoded (fd : FormData) :
  (forall f, fd_targetFormat fd <> Some (format_name f)) ->
  exists resp w,
    serve lib fd = (Returned resp, w) /\
    success resp = false /\
    (forall im enc, ~ In (CallToBuffer im enc) (calls w)) /\
    (isValid (validateFile (fd_file fd)) = true ->
     isValid (validateQuality (parse_optional (fd_quality fd))) = true ->
     match fd_targetFormat fd with
     | Some (c :: rest) =>
         exists file,
           fd_file fd = Some file /\
           let buf := f_bytes file in
           let width := parse_optional (fd_width fd) in
           let height := parse_optional (fd_height fd) in
           let ro := mkResize inside true in
           let resizing := opt_truthy width || opt_truthy height in
           let c1 :=
             CallSharp buf
             :: (if resizing then [CallResize width height ro] else []) in
           match sharp_new lib buf with
           | Some t =>
               r_error resp = Some (reported t) /\ calls w = [CallSharp buf]
           | None =>
               match (if resizing
                      then sharp_resize lib (mkImage buf None) width height
                             ro
                      else None) with
               | Some t => r_error resp = Some (reported t) /\ calls w = c1
               | None =>
                   r_error resp = Some (UnsupportedFormat (c :: rest)) /\
                   calls w = c1
               end
           end
     | _ => r_error resp = Some InvalidFormat /\ w = empty_world
     end).
Proof.
  intros Hfmt.
  destruct (preflight fd) as [e|[file fmt]] eqn:Hg.
  - rewrite (serve_rejected fd e Hg).
    exists (failure e), empty_world.
    split; [reflexivity|]. split; [reflexivity|].
    split; [intros im enc []|].
    intros Hvf Hvq. revert Hg. unfold preflight. cbv zeta.
    rewrite Hvf, Hvq. cbn [negb].
    destruct (fd_targetFormat fd) as [[|c rest]|].
    + destruct (fd_file fd); intros [= <-]; split; reflexivity.
    + destruct (fd_file fd) as [file|]; [discriminate|].
      simpl in Hvf. discriminate.
    + intros [= <-]. split; reflexivity.
  - pose proof (proj1 (preflight_passed fd file fmt) Hg)
      as (Hfile & Hvf & Hvq & Htarget & Htruthy).
    assert (Hnone : forall q, selected_encoder fmt q = None).
    { intros q. apply selected_encoder_None, format_of_string_None.
      intros f ->. now apply (Hfmt f). }
    rewrite (serve_passed fd file fmt Hg). cbv zeta.
    rewrite Hnone, Htarget.
    destruct fmt as [|c rest]; [discriminate|].
    destruct (sharp_new lib (f_bytes file)) as [t1|] eqn:Hnew.
    { eexists _, _. split; [reflexivity|]. split; [reflexivity|].
      split; [intros im enc [[=]|[]]|]. intros _ _.
      exists file. split; [exact Hfile|]. rewrite Hnew.
      split; reflexivity. }
    destruct (opt_truthy _ || opt_truthy _) eqn:Hrz.
    + destruct (sharp_resize lib _ _ _ _) as [t2|] eqn:Hres.
      * eexists _, _. split; [reflexivity|]. split; [reflexivity|].
        split; [intros im enc [[=]|[[=]|[]]]|]. intros _ _.
        exists file. split; [exact Hfile|]. rewrite Hnew, Hres.
        split; reflexivity.
      * eexists _, _. split; [reflexivity|]. split; [reflexivity|].
        split; [intros im enc [[=]|[[=]|[]]]|]. intros _ _.
        exists file. split; [exact Hfile|]. rewrite Hnew, Hres.
        split; reflexivity.
    + eexists _, _. split; [reflexivity|]. split; [reflexivity|].
      split; [intros im enc [[=]|[]]|]. intros _ _.
      exists file. split; [exact Hfile|]. rewrite Hnew.
      split; reflexivity.
Qed.


(** C9, as amended: when the request carries no quality, every encoder
    of jpeg, jpg, webp, avif or tiff is given the default quality 90, and
    the encoders of png and gif are given no quality at all; every resize
    the pipeline asks for uses fit [inside] with [withoutEnlargement] set,
    on the width and height of the request, and when one of them is given
    (and is not 0 or NaN) the image that is encoded carries that
    resize. *)
Theorem default_quality_and_resize_options (fd : FormData)
    (resp : ConversionResponse) (w : World) :
  serve lib fd = (Returned resp, w) ->
  (parse_optional (fd_quality fd) = None ->
   forall im enc,
     In (CallToBuffer im enc) (calls w) ->
     exists f,
       fd_targetFormat fd = Some (format_name f) /\
       selected_encoder (format_name f) (of_N 90) = Some enc /\
       encoder_quality enc
       = if without_quality f then None else Some (of_N 90)) /\
  (forall wd ht o,
     In (CallResize wd ht o) (calls w) ->
     rz_fit o = inside /\ withoutEnlargement o = true /\
     wd = parse_optional (fd_width fd) /\
     ht = parse_optional (fd_height fd)) /\
  (forall im enc,
     In (CallToBuffer im enc) (calls w) ->
     opt_truthy (parse_optional (fd_width fd))
     || opt_truthy (parse_optional (fd_height fd)) = true ->
     im_resize im =
       Some (parse_optional (fd_width fd), parse_optional (fd_height fd),
             mkResize inside true)).
Proof.
  intros Hrun.
  assert (Hsel : forall fmt enc,
             selected_encoder fmt (of_N 90) = Some enc ->
             exists f, fmt = format_name f /\
                       encoder_quality enc
                       = if without_quality f then None
                         else Some (of_N 90)).
  { intros fmt enc He. unfold selected_encoder in He.
    destruct (format_of_string fmt) as [f|] eqn:Hf; [|discriminate].
    apply format_of_string_Some in Hf. exists f. split; [exact Hf|].
    destruct f; injection He as <-; reflexivity. }
  destruct (preflight fd) as [e|[file fmt]] eqn:Hg.
  { rewrite (serve_rejected fd e Hg) in Hrun.
    injection Hrun as <- <-.
    split; [intros _ im enc []|]. split; [intros wd ht o []|].
    intros im enc []. }
  pose proof (proj1 (preflight_passed fd file fmt) Hg)
    as (_ & _ & _ & Htarget & _).
  rewrite (serve_passed fd file fmt Hg) in Hrun. cbv zeta in Hrun.
  destruct (sharp_new lib (f_bytes file)) as [t1|].
  { injection Hrun as <- <-. cbn [calls].
    split; [intros _ im enc [[=]|[]]|].
    split; [intros wd ht o [[=]|[]]|]. intros im enc [[=]|[]]. }
  destruct (opt_truthy _ || opt_truthy _) eqn:Hrz.
  - destruct (sharp_resize lib _ _ _ _) as [t2|].
    { injection Hrun as <- <-. cbn [calls].
      split; [intros _ im enc [[=]|[[=]|[]]]|].
      split; [|intros im enc [[=]|[[=]|[]]]].
      intros wd ht o [[=]|[[= <- <- <-]|[]]]. repeat split. }
    destruct (selected_encoder fmt _) as [enc0|] eqn:Henc.
    + assert (Hcalls : exists out',
                 calls w =
                 [CallSharp (f_bytes file);
                  CallResize (parse_optional (fd_width fd))
                    (parse_optional (fd_height fd)) (mkResize inside true);
                  CallToBuffer
                    (mkImage (f_bytes file)
                       (Some (parse_optional (fd_width fd),
                              parse_optional (fd_height fd),
                              mkResize inside true))) enc0] /\ out' = resp).
      { destruct (sharp_toBuffer lib _ enc0); injection Hrun as <- <-;
          eexists; split; reflexivity. }
      destruct Hcalls as (_ & -> & _).
      split; [|split].
      * intros Hq im enc [[=]|[[=]|[[= <- <-]|[]]]].
        rewrite Hq in Henc. cbn [default] in Henc.
        destruct (Hsel _ _ Henc) as (f & -> & Hquality).
        exists f. split; [exact Htarget|]. split; assumption.
      * intros wd ht o [[=]|[[= <- <- <-]|[[=]|[]]]]. repeat split.
      * intros im enc [[=]|[[=]|[[= <- <-]|[]]]] _. reflexivity.
    + injection Hrun as <- <-. cbn [calls].
      split; [intros _ im enc [[=]|[[=]|[]]]|].
      split; [|intros im enc [[=]|[[=]|[]]]].
      intros wd ht o [[=]|[[= <- <- <-]|[]]]. repeat split.
  - destruct (selected_encoder fmt _) as [enc0|] eqn:Henc.
    + assert (Hcalls : exists out',
                 calls w =
                 [CallSharp (f_bytes file);
                  CallToBuffer (mkImage (f_bytes file) None) enc0]
                 /\ out' = resp).
      { destruct (sharp_toBuffer lib _ enc0); injection Hrun as <- <-;
          eexists; split; reflexivity. }
      destruct Hcalls as (_ & -> & _).
      split; [|split].
      * intros Hq im enc [[=]|[[= <- <-]|[]]].
        rewrite Hq in Henc. cbn [default] in Henc.
        destruct (Hsel _ _ Henc) as (f & -> & Hquality).
        exists f. split; [exact Htarget|]. split; assumption.
      * intros wd ht o [[=]|[[=]|[]]].
      * intros im enc _ Habs. discriminate.
    + injection Hrun as <- <-. cbn [calls].
      split; [intros _ im enc [[=]|[]]|].
      split; [intros wd ht o [[=]|[]]|]. intros im enc [[=]|[]].
Qed.

End Pipeline.

(** ** The pipeline on sample requests *)

Section Scenarios.

Lemma unsupported_format_never_encoded_witness :
  exists resp w,
    serve permissive request_bogus = (Returned resp, w) /\
    success resp = false /\
    (forall im enc, ~ In (CallToBuffer im enc) (calls w)) /\
    r_error resp = Some (UnsupportedFormat (js "bogus")).
Proof.
  destruct (unsupported_format_never_encoded permissive request_bogus)
    as (resp & w & Hrun & Hfail & Hnone & Hwhy).
  - intros f. destruct f; vm_compute; discriminate.
  - exists resp, w. repeat split; try assumption.
    vm_compute in Hrun. injection Hrun as <- <-. vm_compute. reflexivity.
Defined.

(** C4 on the format "bogus": the request passes the checks of
    [convertFile], whose format check only tests that the field is not
    empty, so the image library is called on the bytes of the file and
    asked to resize before the [switch] of [convertImage] rejects the
    format.  With a library that checks resize dimensions as sharp does,
    the request fails inside the library, with neither [InvalidFormat]
    nor [UnsupportedFormat]. *)
Theorem unsupported_format_reaches_library :
  (forall f, fd_targetFormat request_bogus <> Some (format_name f)) /\
  serve permissive request_bogus
  = (Returned (failure (Some (UnsupportedFormat (js "bogus")))),
     mkWorld
       [CallSharp [1; 2; 3];
        CallResize (Some (of_Z (-5))) None (mkResize inside true)]
       [(image_log, ErrorObject (js "Unsupported format: bogus"));
        (action_log, ErrorObject (UnsupportedFormat (js "bogus")))]) /\
  exists resp w,
    serve strict request_bogus = (Returned resp, w) /\
    r_error resp =
      Some (js "Failed to convert image: Expected positive integer for width")
    /\ r_error resp <> Some InvalidFormat
    /\ r_error resp <> Some (UnsupportedFormat (js "bogus"))
    /\ calls w =
         [CallSharp [1; 2; 3];
          CallResize (Some (of_Z (-5))) None (mkResize inside true)].
Proof.
  split; [|split].
  - intros f. destruct f; vm_compute; discriminate.
  - vm_compute. reflexivity.
  - eexists _, _. split; [vm_compute; reflexivity|].
    repeat split; vm_compute; discriminate.
Qed.



(** A width of 0 is not rejected either: it is dropped and the
    conversion goes on without resizing. *)
Lemma zero_width_is_ignored :
  exists resp w,
    serve strict
      (mkFormData (Some small_png) (Some (js "png")) None (Some (js "0"))
         None) = (Returned resp, w) /\
    success resp = true /\
    calls w =
      [CallSharp [1; 2; 3];
       CallToBuffer (mkImage [1; 2; 3] None) (PngEncoder 9 true true)].
Proof.
  eexists _, _. split; [vm_compute; reflexivity|].
  repeat split; vm_compute; reflexivity.
Qed.

Lemma default_quality_and_resize_options_witness :
  exists resp w,
    serve strict request_thumbnail = (Returned resp, w) /\
    In (CallToBuffer
          (mkImage [1; 2; 3]
             (Some (Some (of_N 50), None, mkResize inside true)))
          (JpegEncoder (of_N 90) true true)) (calls w) /\
    (forall im enc,
       In (CallToBuffer im enc) (calls w) ->
       exists f,
         fd_targetFormat request_thumbnail = Some (format_name f) /\
         selected_encoder (format_name f) (of_N 90) = Some enc /\
         encoder_quality enc
         = if without_quality f then None else Some (of_N 90)) /\
    (forall wd ht o,
       In (CallResize wd ht o) (calls w) ->
       rz_fit o = inside /\ withoutEnlargement o = true).
Proof.
  eexists _, _. split; [vm_compute; reflexivity|].
  destruct (default_quality_and_resize_options strict request_thumbnail
              _ _ eq_refl) as (Hq & Hrz & _).
  split; [|split].
  - vm_compute. right. right. left. reflexivity.
  - apply Hq. reflexivity.
  - intros wd ht o Hin. destruct (Hrz wd ht o Hin) as (? & ? & _).
    now split.
Defined.

(** C9, refuted as stated: a request for png without a quality is
    encoded with options that carry no quality at all, so not the
    default 90. *)
Lemma png_encoded_without_quality :
  fd_quality request_to_png = None /\
  exists resp w enc,
    serve permissive request_to_png = (Returned resp, w) /\
    success resp = true /\
    calls w = [CallSharp [1; 2; 3]; CallToBuffer (mkImage [1; 2; 3] None) enc]
    /\ enc = PngEncoder 9 true true
    /\ encoder_quality enc = None
    /\ encoder_quality enc <> Some (of_N 90).
Proof.
  split; [reflexivity|].
  eexists _, _, _. split; [vm_compute; reflexivity|].
  split; [reflexivity|]. split; [reflexivity|]. split; [reflexivity|].
  split; [reflexivity | discriminate].
Qed.

(** A width beyond 2^53 reaches the library as the nearest double. *)
Lemma width_rounded_to_double :
  parse_optional (Some (js "9007199254740993"))
  = Some (of_N 9007199254740992).
Proof. vm_compute. reflexivity. Qed.

(** C3 on a name with two dots: the server names the output
    "photo.webp", where stripping only the final extension of
    "photo.v2.png" gives "photo.v2.webp". *)
Theorem output_name_cut_at_first_dot :
  f_name small_png = js "photo.v2.png" /\
  (exists resp w,
     serve permissive request_two_dots = (Returned resp, w) /\
     success resp = true /\
     r_fileName resp = Some (js "photo.webp")) /\
  output_name (js "photo.v2.png") (js "webp") = js "photo.v2.webp".
Proof.
  split; [reflexivity|]. split; [|vm_compute; reflexivity].
  eexists _, _. split; [vm_compute; reflexivity|].
  split; vm_compute; reflexivity.
Qed.

(** C5 on a failing encoder: the message of the error the library
    raised is returned to the caller behind the prefix "Failed to
    convert image: ", besides being logged twice on the server. *)
Theorem library_message_returned_to_caller :
  serve (failing (js "Input buffer contains unsupported image format"))
    request_two_dots
  = (Returned
       (failure
          (Some (js ("Failed to convert image: "
                     ++ "Input buffer contains unsupported image format")))),
     mkWorld
       [CallSharp [1; 2; 3];
        CallToBuffer (mkImage [1; 2; 3] None)
          (WebpEncoder (of_N 90) false false 6)]
       [(image_log,
         ErrorObject (js "Input buffer contains unsupported image format"));
        (action_log,
         ErrorObject
           (js ("Failed to convert image: "
                ++ "Input buffer contains unsupported image format")))]).
Proof. vm_compute. reflexivity. Qed.

End Scenarios.

(** ** Extension check *)

Section ExtensionCheck.

Import Extension.

Lemma split_two_segments (s : jsstring) :
  existsb is_dot s = true ->
  exists seg x segs, split dot s = seg :: x :: segs.
Proof.
  induction s as [|c s IH]; [discriminate|]. simpl.
  unfold is_dot at 1. destruct (c =? dot) eqn:Hc; simpl.
  - intros _. destruct (split dot s) as [|x segs] eqn:Hs.
    + destruct s; simpl in Hs; [discriminate|].
      destruct (_ =? dot); [discriminate|].
      destruct (split dot s); discriminate.
    + eauto.
  - intros H. destruct (IH H) as (seg & x & segs & ->). eauto.
Qed.

(** The last segment: what follows the last dot, or the whole string. *)
Lemma last_split_cons (c : code_unit) (rest : jsstring) :
  last (split dot (c :: rest))
  = if existsb is_dot rest then last (split dot rest)
    else if is_dot c then Some rest else Some (c :: rest).
Proof.
  simpl. unfold is_dot at 2.
  destruct (existsb is_dot rest) eqn:Hrest.
  - destruct (split_two_segments rest Hrest) as (seg & x & segs & ->).
    destruct (c =? dot); reflexivity.
  - rewrite (split_no_dot rest Hrest). destruct (c =? dot); reflexivity.
Qed.

Lemma last_split_no_dot (s : jsstring) :
  existsb is_dot s = false -> last (split dot s) = Some s.
Proof. intros H. now rewrite (split_no_dot s H). Qed.

Lemma last_split_suffix (prefix e : jsstring) :
  existsb is_dot e = false ->
  last (split dot (prefix ++ dot :: e)) = Some e.
Proof.
  intros He. induction prefix as [|c p IH].
  - simpl app. rewrite last_split_cons, He. reflexivity.
  - change ((c :: p) ++ dot :: e)%list with (c :: (p ++ dot :: e))%list.
    rewrite last_split_cons.
    replace (existsb is_dot (p ++ dot :: e)) with true; [exact IH|].
    symmetry. rewrite existsb_app. simpl. apply orb_true_r.
Qed.

Lemma ascii_lower_dot (c : code_unit) : is_dot (ascii_lower c) = is_dot c.
Proof.
  unfold ascii_lower, is_dot, dot.
  destruct ((65 <=? c) && (c <=? 90)) eqn:H; [|reflexivity].
  apply andb_true_iff in H. destruct H as [H1 H2].
  apply N.leb_le in H1, H2.
  destruct (c + 32 =? 46) eqn:Ha; destruct (c =? 46) eqn:Hb;
    try reflexivity.
  - apply N.eqb_eq in Ha. lia.
  - apply N.eqb_eq in Hb. lia.
Qed.

Lemma existsb_dot_lower (s : jsstring) :
  existsb is_dot (map ascii_lower s) = existsb is_dot s.
Proof.
  induction s as [|c s IH]; [reflexivity|]. simpl.
  now rewrite ascii_lower_dot, IH.
Qed.

Lemma table_extensions :
  forall mimeType exts ext,
    mimeToExtension !! mimeType = Some exts -> In ext exts ->
    existsb is_dot ext = false /\ str_truthy ext = true /\
    In mimeType
       [js "image/jpeg"; js "image/png"; js "image/webp"; js "image/avif";
        js "image/tiff"; js "image/gif"; js "image/svg+xml"].
Proof.
  intros mimeType exts ext Hlook Hin.
  unfold mimeToExtension in Hlook.
  apply elem_of_list_to_map_2 in Hlook.
  repeat (apply elem_of_cons in Hlook; destruct Hlook as [Hlook|Hlook]);
    try (apply elem_of_nil in Hlook; contradiction);
    injection Hlook as -> ->; simpl in Hin;
    repeat match goal with
           | H : _ \/ _ |- _ => destruct H as [H|H]
           | H : False |- _ => contradiction
           end; subst ext;
    (split; [reflexivity|split; [reflexivity|]]);
    vm_compute; tauto.
Qed.

Variable rt : Runtime.

Lemma accepted_last_segment (filename mimeType : jsstring)
    (exts : list jsstring) (e : jsstring) :
  lowers_ascii rt ->
  mimeToExtension !! mimeType = Some exts ->
  last (split dot filename) = Some e ->
  forallb is_ascii e = true ->
  In (map ascii_lower e) exts ->
  validateFileExtension rt filename mimeType = Returned valid.
Proof.
  intros Hrt Hlook Hlast Hascii Hin.
  destruct (table_extensions mimeType exts _ Hlook Hin) as (_ & Hne & _).
  assert (Hinc : includes exts (map ascii_lower e) = true)
    by now apply includes_In.
  unfold validateFileExtension, get_property.
  rewrite Hlast, Hlook. cbn [option_map].
  now rewrite (Hrt e Hascii), Hne, Hinc.
Qed.

(** X1: a name is accepted as soon as what follows its last dot, or the
    whole name when it has no dot, is one of the extensions of the type up
    to the case of ASCII letters; what precedes the last dot is not looked
    at. *)
Theorem validateFileExtension_suffix (mimeType : jsstring)
    (exts : list jsstring) (prefix e : jsstring) :
  lowers_ascii rt ->
  mimeToExtension !! mimeType = Some exts ->
  forallb is_ascii e = true ->
  In (map ascii_lower e) exts ->
  validateFileExtension rt (prefix ++ dot :: e) mimeType = Returned valid /\
  validateFileExtension rt e mimeType = Returned valid.
Proof.
  intros Hrt Hlook Hascii Hin.
  destruct (table_extensions mimeType exts _ Hlook Hin) as (Hdot & _ & _).
  rewrite existsb_dot_lower in Hdot.
  split.
  - apply (accepted_last_segment _ _ exts e); try assumption.
    now apply last_split_suffix.
  - apply (accepted_last_segment _ _ exts e); try assumption.
    now apply last_split_no_dot.
Qed.

Lemma inherited_not_own (key : jsstring) :
  In key Object_prototype_keys -> mimeToExtension !! key = None.
Proof.
  unfold Object_prototype_keys. simpl.
  intros H.
  repeat (destruct H as [<-|H]; [vm_compute; reflexivity|]).
  contradiction.
Qed.

(** X2: the check returns [valid] only for one of the seven types of its
    table and a name whose last segment, lower-cased, is listed for that
    type; it throws, instead of returning a verdict, exactly when the type
    is the name of a property inherited from [Object.prototype] and the
    lower-cased last segment is not empty. *)
Theorem validateFileExtension_verdicts (filename mimeType : jsstring) :
  (validateFileExtension rt filename mimeType = Returned valid ->
   exists exts seg,
     mimeToExtension !! mimeType = Some exts /\
     last (split dot filename) = Some seg /\
     In (toLowerCase rt seg) exts /\
     In mimeType
        [js "image/jpeg"; js "image/png"; js "image/webp"; js "image/avif";
         js "image/tiff"; js "image/gif"; js "image/svg+xml"]) /\
  ((exists t, validateFileExtension rt filename mimeType = Threw t) <->
   In mimeType Object_prototype_keys /\
   exists seg, last (split dot filename) = Some seg /\
               toLowerCase rt seg <> []).
Proof.
  unfold validateFileExtension, get_property.
  destruct (last (split dot filename)) as [seg|] eqn:Hseg; cbn [option_map].
  2:{ split; [discriminate|]. split.
      - intros [t Ht]. discriminate.
      - intros (_ & seg & Hs & _). discriminate. }
  destruct (toLowerCase rt seg) as [|c low] eqn:Hlow; cbn [str_truthy negb].
  { split; [discriminate|]. split.
    - intros [t Ht]. discriminate.
    - intros (_ & seg' & [= <-] & Hne). congruence. }
  destruct (mimeToExtension !! mimeType) as [exts|] eqn:Hlook.
  - split.
    + destruct (includes exts (c :: low)) eqn:Hinc; [|discriminate].
      intros _. apply includes_In in Hinc.
      exists exts, seg. rewrite Hlow. repeat split; try assumption.
      exact (proj2 (proj2 (table_extensions _ _ _ Hlook Hinc))).
    + split.
      * intros [t Ht]. destruct (includes exts (c :: low)); discriminate.
      * intros (Hkey & _). pose proof (inherited_not_own _ Hkey) as Hno.
        discriminate (eq_trans (eq_sym Hlook) Hno).
  - destruct (includes Object_prototype_keys mimeType) eqn:Hkey.
    + split; [discriminate|]. split.
      * intros _. split; [now apply includes_In|].
        exists seg. rewrite Hlow. split; [reflexivity | discriminate].
      * intros _. eauto.
    + split; [discriminate|]. split.
      * intros [t Ht]. discriminate.
      * intros (Hin & _). apply includes_In in Hin. congruence.
Qed.

(** X3: [image/jpg] is in the upload allow-list but has no entry in the
    extension table, so a file of that type fails the extension check
    whatever its name; every other type of the allow-list has at least
    one extension. *)
Theorem image_jpg_never_matches :
  In (js "image/jpg") ALLOWED_MIME_TYPES /\
  (forall filename,
      validateFileExtension rt filename (js "image/jpg") = Returned mismatch)
  /\
  (forall t, In t ALLOWED_MIME_TYPES -> t <> js "image/jpg" ->
             exists exts ext, mimeToExtension !! t = Some exts /\ In ext exts).
Proof.
  split; [vm_compute; tauto|]. split.
  - intros filename. unfold validateFileExtension.
    replace (get_property (js "image/jpg")) with (@Undefined (list jsstring))
      by (vm_compute; reflexivity).
    destruct (option_map _ _) as [e|]; [|reflexivity].
    destruct (negb (str_truthy e)); reflexivity.
  - intros t Hin Hne. unfold ALLOWED_MIME_TYPES in Hin. simpl in Hin.
    destruct Hin as [<-|[<-|[<-|[<-|[<-|[<-|[<-|[<-|[]]]]]]]]];
      try contradiction;
      eexists _, _; (split; [vm_compute; reflexivity | left; reflexivity]).
Qed.

Lemma split_map_lower (s : jsstring) :
  split dot (map ascii_lower s) = map (map ascii_lower) (split dot s).
Proof.
  induction s as [|c s IH]; [reflexivity|]. simpl.
  change (ascii_lower c =? dot) with (is_dot (ascii_lower c)).
  rewrite ascii_lower_dot. unfold is_dot.
  destruct (c =? dot); rewrite IH; [reflexivity|].
  destruct (split dot s); reflexivity.
Qed.

Lemma last_map_lower (l : list jsstring) :
  last (map (map ascii_lower) l) = option_map (map ascii_lower) (last l).
Proof.
  induction l as [|x l IH]; [reflexivity|].
  destruct l as [|y l]; [reflexivity|]. exact IH.
Qed.

Lemma last_segment_ascii (s seg : jsstring) :
  forallb is_ascii s = true -> last (split dot s) = Some seg ->
  forallb is_ascii seg = true.
Proof.
  revert seg. induction s as [|c s IH]; intros seg Hs.
  - now intros [= <-].
  - rewrite last_split_cons. simpl in Hs. apply andb_true_iff in Hs.
    destruct Hs as [Hc Hs].
    destruct (existsb is_dot s); [now apply IH|].
    destruct (is_dot c); intros [= <-]; [exact Hs|].
    simpl. now rewrite Hc, Hs.
Qed.

Lemma ascii_lower_idem (s : jsstring) :
  map ascii_lower (map ascii_lower s) = map ascii_lower s.
Proof.
  induction s as [|c s IH]; [reflexivity|]. simpl. rewrite IH. f_equal.
  unfold ascii_lower.
  destruct ((65 <=? c) && (c <=? 90)) eqn:H; [|now rewrite H].
  apply andb_true_iff in H. destruct H as [H1 H2].
  apply N.leb_le in H1, H2.
  replace ((65 <=? c + 32) && (c + 32 <=? 90)) with false; [reflexivity|].
  symmetry. apply andb_false_iff. right. apply N.leb_gt. lia.
Qed.

Lemma ascii_lower_ascii (s : jsstring) :
  forallb is_ascii s = true -> forallb is_ascii (map ascii_lower s) = true.
Proof.
  induction s as [|c s IH]; [reflexivity|]. simpl.
  intros H. apply andb_true_iff in H. destruct H as [Hc Hs].
  rewrite (IH Hs), andb_true_r.
  unfold is_ascii, ascii_lower in *. apply N.ltb_lt in Hc. apply N.ltb_lt.
  destruct ((65 <=? c) && (c <=? 90)) eqn:H; [|exact Hc].
  apply andb_true_iff in H. destruct H as [H1 H2]. apply N.leb_le in H2. lia.
Qed.

(** X4: on names of ASCII code units the check does not depend on the
    case of the letters: a name and its lower-cased form get the same
    verdict. *)
Theorem validateFileExtension_case_insensitive (filename mimeType : jsstring) :
  lowers_ascii rt ->
  forallb is_ascii filename = true ->
  validateFileExtension rt (map ascii_lower filename) mimeType
  = validateFileExtension rt filename mimeType.
Proof.
  intros Hrt Hascii. unfold validateFileExtension.
  rewrite split_map_lower, last_map_lower.
  destruct (last (split dot filename)) as [seg|] eqn:Hseg; [|reflexivity].
  cbn [option_map].
  pose proof (last_segment_ascii filename seg Hascii Hseg) as Hs.
  rewrite (Hrt seg Hs), (Hrt _ (ascii_lower_ascii seg Hs)), ascii_lower_idem.
  reflexivity.
Qed.

End ExtensionCheck.

(** ** Format list and quality ranges *)

Section ConstantTables.

Import Tables.

(** X5: every entry of [SUPPORTED_FORMATS] names a member of the
    enumeration and shows the extension [getFileExtension] gives for it;
    no format is listed twice, and [jpg] is the only member the list
    leaves out. *)
Theorem SUPPORTED_FORMATS_consistent :
  (forall info, In info SUPPORTED_FORMATS ->
     (exists f, value info = format_name f) /\
     extension info = getFileExtension (value info)) /\
  NoDup (map value SUPPORTED_FORMATS) /\
  (forall f, In (format_name f) (map value SUPPORTED_FORMATS) <-> f <> jpg).
Proof.
  split; [|split].
  - intros info Hin. unfold SUPPORTED_FORMATS in Hin. simpl in Hin.
    destruct Hin as [<-|[<-|[<-|[<-|[<-|[<-|[]]]]]]];
      (split; [|vm_compute; reflexivity]).
    + now exists jpeg.
    + now exists png.
    + now exists webp.
    + now exists avif.
    + now exists tiff.
    + now exists gif.
  - apply (bool_decide_unpack _). vm_compute. exact I.
  - intros f. split.
    + intros Hin ->. vm_compute in Hin.
      repeat (destruct Hin as [Hin|Hin]; [discriminate|]). contradiction.
    + intros Hne. destruct f; try contradiction; vm_compute; tauto.
Qed.

(** X6: [QUALITY_RANGES] has a range for every member of the
    enumeration, and [validateQuality] accepts every value inside the range
    of any format; for every format but [png] it accepts no other finite
    value, while for [png] it also accepts the values above 9 up to 100. *)
Theorem QUALITY_RANGES_within_validation (f : SupportedFormat) :
  exists lo hi,
    QUALITY_RANGES !! format_name f = Some (lo, hi) /\
    (forall q : Q,
        (inject_Z (Z.of_N lo) <= q)%Q -> (q <= inject_Z (Z.of_N hi))%Q ->
        validateQuality (Some (Fin q)) = valid) /\
    (f <> png ->
     forall q : Q,
       validateQuality (Some (Fin q)) = valid ->
       (inject_Z (Z.of_N lo) <= q)%Q /\ (q <= inject_Z (Z.of_N hi))%Q) /\
    (f = png ->
     hi = 9 /\
     forall q : Q, (9 < q)%Q -> (q <= 100)%Q ->
                   validateQuality (Some (Fin q)) = valid).
Proof.
  assert (Hacc : forall q : Q, (1 <= q)%Q -> (q <= 100)%Q ->
                 validateQuality (Some (Fin q)) = valid).
  { intros q H1 H100. rewrite validateQuality_Fin.
    destruct (lt (Fin q) (of_N 1)) eqn:Hlt.
    - apply lt_Fin_one in Hlt. exfalso. now apply (Qlt_not_le _ _ Hlt).
    - destruct (gt (Fin q) (of_N 100)) eqn:Hgt; [|reflexivity].
      apply gt_Fin_hundred in Hgt. exfalso.
      now apply (Qlt_not_le _ _ Hgt). }
  assert (Hrej : forall q : Q, validateQuality (Some (Fin q)) = valid ->
                 (1 <= q)%Q /\ (q <= 100)%Q).
  { intros q. rewrite validateQuality_Fin.
    destruct (lt (Fin q) (of_N 1)) eqn:Hlt; [discriminate|].
    destruct (gt (Fin q) (of_N 100)) eqn:Hgt; [discriminate|].
    intros _. split.
    - apply Qnot_lt_le. intros H. apply lt_Fin_one in H. congruence.
    - apply Qnot_lt_le. intros H. apply gt_Fin_hundred in H. congruence. }
  destruct f;
    (eexists _, _; split; [vm_compute; reflexivity|]);
    (split; [|split]);
    try (intros q Hlo Hhi; apply Hacc; [exact Hlo|]; try exact Hhi;
         apply (Qle_trans _ _ _ Hhi); unfold Qle; simpl; lia);
    try (intros _ q Hv; exact (Hrej q Hv));
    try (intros Hne; contradiction);
    try discriminate.
  intros _. split; [reflexivity|].
  intros q H9 H100. apply Hacc; [|exact H100].
  apply Qlt_le_weak. apply (Qle_lt_trans _ 9); [|exact H9].
  unfold Qle; simpl; lia.
Qed.

End ConstantTables.

(** ** File information *)

Section FileInformation.

Import NumberText Info.

Variable rt : Runtime.

Lemma validateFile_invalid_message (file : option File) :
  isValid (validateFile file) = false ->
  exists msg, validateFile file = invalid msg.
Proof.
  destruct file as [f|]; [|intros _; eexists; reflexivity].
  pose proof (validateFile_cases f) as Hc. cbv zeta in Hc.
  destruct Hc as [(_ & ->)|[(_ & _ & ->)|[(_ & _ & ->)|(_ & _ & Hr)]]];
    try (intros _; eexists; reflexivity).
  destruct Hr as [-> | [-> | ->]]; try (intros _; eexists; reflexivity).
  discriminate.
Qed.

Lemma validateFile_valid (file : option File) :
  isValid (validateFile file) = true ->
  exists f, file = Some f /\ validateFile (Some f) = valid /\
            0 < f_size f <= MAX_FILE_SIZE.
Proof.
  destruct file as [f|]; [|discriminate].
  pose proof (validateFile_cases f) as Hc. cbv zeta in Hc.
  destruct Hc as [(_ & ->)|[(_ & _ & ->)|[(_ & _ & ->)|(Hs & _ & Hr)]]];
    try discriminate.
  destruct Hr as [Hr | [Hr | Hr]]; rewrite Hr; try discriminate.
  intros _. exists f. now rewrite Hr.
Qed.

(** X7: [getFileInfo] succeeds exactly when [validateFile] accepts the
    file.  On failure it returns the validator's message and no data, and
    [convertFile] on the same form fails with the same message without
    calling the image library; on success it returns the name, size and
    type of the file unchanged and no error. *)
Theorem getFileInfo_mirrors_validateFile (lib : Sharp) (fd : FormData) :
  let r := getFileInfo rt fd in
  info_success r = isValid (validateFile (fd_file fd)) /\
  (info_success r = false ->
   info_data r = None /\
   (exists msg, info_error r = Some msg /\
                validateFile (fd_file fd) = invalid msg) /\
   serve lib fd = (Returned (failure (info_error r)), empty_world)) /\
  (info_success r = true ->
   info_error r = None /\
   exists file data,
     fd_file fd = Some file /\ info_data r = Some data /\
     name data = f_name file /\ size data = f_size file /\
     type data = f_type file).
Proof.
  cbv zeta. unfold getFileInfo.
  destruct (isValid (validateFile (fd_file fd))) eqn:Hv; cbn [negb].
  - destruct (validateFile_valid _ Hv) as (f & -> & _ & _).
    cbn [info_success info_data info_error].
    split; [reflexivity|]. split; [discriminate|]. intros _.
    split; [reflexivity|]. eexists f, _. repeat split.
  - cbn [info_success info_data info_error].
    split; [reflexivity|]. split; [|discriminate]. intros _.
    destruct (validateFile_invalid_message _ Hv) as (msg & Hmsg).
    split; [reflexivity|]. split.
    + exists msg. now rewrite Hmsg.
    + apply serve_rejected. unfold preflight. cbv zeta.
      now rewrite Hv.
Qed.

Lemma two_decimals_digits (k : nat) :
  (k <= 1000)%nat ->
  let n := N.of_nat k in
  with_two_decimals n
  = ((if n <? 1000 then [48 + n / 100] else [49; 48])
     ++ [46; 48 + (n / 10) mod 10; 48 + n mod 10])%list.
Proof.
  intros Hk.
  assert (Hall : Forall
            (fun k : nat =>
               let n := N.of_nat k in
               with_two_decimals n
               = ((if n <? 1000 then [48 + n / 100] else [49; 48])
                  ++ [46; 48 + (n / 10) mod 10; 48 + n mod 10])%list)
            (seq 0 1001)).
  { apply (bool_decide_unpack _). vm_compute. exact I. }
  rewrite Forall_forall in Hall. apply Hall.
  apply elem_of_seq. lia.
Qed.

Lemma toFixed2_megabytes (s : N) :
  s <= MAX_FILE_SIZE ->
  toFixed2 rt (div_N s (1024 * 1024))
  = with_two_decimals ((100 * s + 524288) / 1048576).
Proof.
  intros Hs. unfold MAX_FILE_SIZE in Hs.
  unfold toFixed2, div_N.
  change (1024 * 1024 =? 0) with false. cbv iota.
  change (N.succ_pos (N.pred (1024 * 1024))) with 1048576%positive.
  assert (Hpos : Qle_bool 0 (Z.of_N s # 1048576) = true).
  { apply Qle_bool_iff. unfold Qle. simpl. lia. }
  rewrite Hpos. cbn [negb].
  assert (Habs : Qabs (Z.of_N s # 1048576) = (Z.of_N s # 1048576)).
  { unfold Qabs. now rewrite Z.abs_eq by lia. }
  rewrite Habs.
  assert (Hbig : Qle_bool (inject_Z (10 ^ 21)) (Z.of_N s # 1048576) = false).
  { apply not_true_iff_false. rewrite Qle_bool_iff. unfold Qle. simpl.
    lia. }
  rewrite Hbig. unfold concat. cbn [app]. f_equal.
  unfold Qfloor, Qplus, Qmult. cbn [Qnum Qden].
  change (Z.pos (1048576 * 1)) with 1048576%Z.
  change (Z.pos (1048576 * 1 * 2)) with (1048576 * 2)%Z.
  replace (Z.of_N s * 100 * 2 + 1 * 1048576)%Z
    with ((100 * Z.of_N s + 524288) * 2)%Z by lia.
  rewrite Z.div_mul_cancel_r by lia.
  change 524288%Z with (Z.of_N 524288).
  change 100%Z with (Z.of_N 100). change 1048576%Z with (Z.of_N 1048576).
  rewrite <- N2Z.inj_mul, <- N2Z.inj_add, <- N2Z.inj_div.
  apply N2Z.id.
Qed.

(** X8: for a file [getFileInfo] accepts, [sizeInMB] is the size in
    units of 2^20 bytes rounded to the nearest hundredth (upwards on a
    tie) and written with exactly two decimals: one digit, a point and
    two digits, or "10.00" for the largest sizes; it is never off by more
    than half a hundredth, and a file of fewer than 5243 bytes is shown as
    "0.00". *)
Theorem getFileInfo_sizeInMB (fd : FormData) (data : FileData) :
  info_data (getFileInfo rt fd) = Some data ->
  let n := (100 * size data + 524288) / 1048576 in
  n <= 1000 /\
  n * 1048576 <= 100 * size data + 524288 < (n + 1) * 1048576 /\
  sizeInMB data
  = ((if n <? 1000 then [48 + n / 100] else [49; 48])
     ++ [46; 48 + (n / 10) mod 10; 48 + n mod 10])%list /\
  (size data < 5243 -> sizeInMB data = js "0.00").
Proof.
  unfold getFileInfo.
  destruct (isValid (validateFile (fd_file fd))) eqn:Hv; cbn [negb];
    [|discriminate].
  destruct (validateFile_valid _ Hv) as (f & -> & _ & Hsize).
  cbn [info_data]. intros [= <-]. cbn [size sizeInMB]. cbv zeta.
  assert (Hmax : f_size f <= MAX_FILE_SIZE) by tauto.
  unfold MAX_FILE_SIZE in Hmax.
  set (n := (100 * f_size f + 524288) / 1048576).
  assert (Hn : n <= 1000).
  { assert (n < 1001); [|lia].
    unfold n. apply N.Div0.div_lt_upper_bound. lia. }
  assert (Hdiv : n * 1048576 <= 100 * f_size f + 524288 < (n + 1) * 1048576).
  { assert (Hnz : 1048576 <> 0) by lia.
    pose proof (N.div_mod (100 * f_size f + 524288) 1048576 Hnz) as Hdm.
    pose proof (N.mod_lt (100 * f_size f + 524288) 1048576 Hnz) as Hlt.
    fold n in Hdm.
    remember ((100 * f_size f + 524288) mod 1048576) as r eqn:Hr.
    clear Hr Hn. clearbody n. clear Hsize Hmax. lia. }
  assert (Htext : toFixed2 rt (div_N (f_size f) (1024 * 1024))
                  = ((if n <? 1000 then [48 + n / 100] else [49; 48])
                     ++ [46; 48 + (n / 10) mod 10; 48 + n mod 10])%list).
  { rewrite toFixed2_megabytes by tauto. fold n.
    rewrite <- (N2Nat.id n). apply two_decimals_digits. lia. }
  split; [exact Hn|]. split; [exact Hdiv|]. split; [exact Htext|].
  intros Hsmall. etransitivity; [exact Htext|].
  assert (Hzero : n = 0) by (clearbody n; lia).
  rewrite Hzero. reflexivity.
Qed.

End FileInformation.

(** ** More on the validator and the pipeline *)

Section ValidatorMore.

Lemma validateFile_accepted (f : File) :
  validateFile (Some f) = valid ->
  0 < f_size f <= MAX_FILE_SIZE /\
  In (f_type f) ALLOWED_MIME_TYPES /\
  canonical (f_name f) = true.
Proof.
  unfold validateFile.
  destruct (MAX_FILE_SIZE <? f_size f) eqn:Hbig; [discriminate|].
  apply N.ltb_ge in Hbig.
  destruct (f_size f =? 0) eqn:Hzero; [discriminate|].
  apply N.eqb_neq in Hzero.
  destruct (includes ALLOWED_MIME_TYPES (f_type f)) eqn:Hty; cbn [negb];
    [|discriminate].
  apply includes_In in Hty.
  destruct (MAX_FILENAME_LENGTH <? N.of_nat (length (f_name f)));
    [discriminate|].
  unfold str_eqb.
  destruct (bool_decide (sanitizeFilename (f_name f) = f_name f)) eqn:Hs;
    cbn [negb]; [|discriminate].
  apply bool_decide_eq_true in Hs. intros _.
  split; [lia|]. split; [exact Hty|].
  rewrite <- Hs. apply sanitizeFilename_canonical.
Qed.

(** X9: a present file is accepted exactly when its declared size is
    between 1 byte and 10 MiB, its declared type is in the allow-list and
    its name is in canonical form: only characters of [[A-Za-z0-9._-]], no
    two dots in a row, no leading dot, at most 255 code units.  In
    particular an accepted name contains no path separator. *)
Theorem validateFile_accepts_iff (f : File) :
  (validateFile (Some f) = valid <->
   0 < f_size f <= MAX_FILE_SIZE /\
   In (f_type f) ALLOWED_MIME_TYPES /\
   canonical (f_name f) = true) /\
  (validateFile (Some f) = valid ->
   ~ In 47 (f_name f) /\ ~ In 92 (f_name f)).
Proof.
  split; [split; [apply validateFile_accepted|]|].
  - intros (Hsize & Hty & Hc). unfold validateFile.
    replace (MAX_FILE_SIZE <? f_size f) with false
      by (symmetry; apply N.ltb_ge; lia).
    replace (f_size f =? 0) with false by (symmetry; apply N.eqb_neq; lia).
    apply includes_In in Hty. rewrite Hty. cbn [negb].
    rewrite (sanitizeFilename_fixed _ Hc).
    unfold canonical in Hc. apply andb_true_iff in Hc.
    destruct Hc as [_ Hlen]. apply Nat.leb_le in Hlen.
    replace (MAX_FILENAME_LENGTH <? N.of_nat (length (f_name f))) with false
      by (symmetry; apply N.ltb_ge; unfold MAX_FILENAME_LENGTH in *; lia).
    unfold str_eqb. now rewrite bool_decide_eq_true_2.
  - intros Hv. apply validateFile_accepted in Hv.
    destruct Hv as (_ & _ & Hc). unfold canonical in Hc.
    repeat (apply andb_true_iff in Hc; destruct Hc as [Hc ?]).
    rewrite forallb_forall in Hc.
    split; intros Hin; apply Hc in Hin; vm_compute in Hin; discriminate.
Qed.

(** X10: whatever the name, the sanitized name is never longer than the
    name or than 255 code units, is made only of characters of
    [[A-Za-z0-9._-]] (so it has no path separator), has no two dots in a
    row and does not start with a dot. *)
Theorem sanitizeFilename_safe (name : jsstring) :
  (length (sanitizeFilename name) <= length name)%nat /\
  (length (sanitizeFilename name) <= 255)%nat /\
  (forall c, In c (sanitizeFilename name) ->
             in_class c = true /\ c <> 47 /\ c <> 92) /\
  no_dot_pair (sanitizeFilename name) = true /\
  starts_with_dot (sanitizeFilename name) = false.
Proof.
  pose proof (sanitizeFilename_canonical name) as Hc.
  unfold canonical in Hc.
  repeat (apply andb_true_iff in Hc; destruct Hc as [Hc ?]).
  match goal with H : negb _ = true |- _ => apply negb_true_iff in H end.
  match goal with H : (_ <=? _)%nat = true |- _ => apply Nat.leb_le in H end.
  split; [|split; [assumption|split; [|split; assumption]]].
  - unfold sanitizeFilename, slice0, strip_leading_dots.
    assert (Hlen : forall s, (length (replace_dot_runs O s) <= length s)%nat).
    { apply (replace_dot_runs_ind
               (fun s out => (length out <= length s)%nat)).
      - reflexivity.
      - intros c rest out _ IH. rewrite length_skipn in IH. simpl. lia.
      - intros c rest out _ IH. simpl. lia. }
    set (b := replace_dot_runs O (replace_special name)).
    pose proof (length_firstn (N.to_nat MAX_FILENAME_LENGTH)
                  (skipn (dot_run b) b)) as Hfirst.
    pose proof (length_skipn (dot_run b) b) as Hskip.
    pose proof (Hlen (replace_special name)) as Hruns. fold b in Hruns.
    unfold replace_special in Hruns. rewrite length_map in Hruns.
    clearbody b. lia.
  - intros c Hin. rewrite forallb_forall in Hc. pose proof (Hc c Hin) as Hcls.
    split; [exact Hcls|].
    split; intros ->; vm_compute in Hcls; discriminate.
Qed.

End ValidatorMore.

Section PipelineMore.

Variable lib : Sharp.

Lemma validateQuality_invalid (q : option number) :
  isValid (validateQuality q) = false ->
  validateQuality q = invalid QualityOutOfRange.
Proof.
  destruct q as [q|]; [|discriminate]. unfold validateQuality.
  destruct (_ || _); [reflexivity | discriminate].
Qed.

Lemma preflight_message (fd : FormData) (e : option jsstring) :
  preflight fd = inl e -> exists msg, e = Some msg.
Proof.
  unfold preflight. cbv zeta.
  destruct (isValid (validateFile (fd_file fd))) eqn:Hvf; cbn [negb].
  2:{ intros [= <-]. destruct (validateFile_invalid_message _ Hvf) as (m & ->).
      eauto. }
  destruct (isValid (validateQuality _)) eqn:Hvq; cbn [negb].
  2:{ intros [= <-]. rewrite (validateQuality_invalid _ Hvq). eauto. }
  destruct (fd_targetFormat fd) as [fmt|]; [|intros [= <-]; eauto].
  destruct (fd_file fd); [|intros [= <-]; eauto].
  destruct (str_truthy fmt); [discriminate | intros [= <-]; eauto].
Qed.

(** X11: a form whose file or quality fails validation is answered with
    the validator's message, the file check coming first, and leaves no
    trace: the image library is not called and nothing is logged. *)
Theorem validation_failure_short_circuits (fd : FormData) :
  isValid (validateFile (fd_file fd)) = false \/
  isValid (validateQuality (parse_optional (fd_quality fd))) = false ->
  exists msg,
    serve lib fd = (Returned (failure (Some msg)), empty_world) /\
    (isValid (validateFile (fd_file fd)) = false ->
     validateFile (fd_file fd) = invalid msg) /\
    (isValid (validateFile (fd_file fd)) = true ->
     msg = QualityOutOfRange).
Proof.
  intros Hbad.
  destruct (isValid (validateFile (fd_file fd))) eqn:Hvf.
  - destruct Hbad as [Hbad|Hvq]; [discriminate|].
    exists QualityOutOfRange. split; [|split; [discriminate|reflexivity]].
    apply serve_rejected. unfold preflight. cbv zeta.
    rewrite Hvf, Hvq. cbn [negb].
    now rewrite (validateQuality_invalid _ Hvq).
  - destruct (validateFile_invalid_message _ Hvf) as (msg & Hmsg).
    exists msg. split; [|split; [intros _; exact Hmsg | discriminate]].
    apply serve_rejected. unfold preflight. cbv zeta.
    rewrite Hvf. cbn [negb]. now rewrite Hmsg.
Qed.

(** X12: [convertFile] never throws, whatever the image library does,
    and its response has one of two shapes: a success with data, file
    name, MIME type and message and no error, after which nothing was
    logged; or a failure with an error message and none of the other
    fields. *)
Theorem convertFile_response_shape (fd : FormData) :
  exists resp w,
    serve lib fd = (Returned resp, w) /\
    ((success resp = true /\ is_Some (r_data resp) /\
      is_Some (r_fileName resp) /\ is_Some (r_mimeType resp) /\
      is_Some (r_message resp) /\ r_error resp = None /\ console w = [])
     \/
     (success resp = false /\ r_data resp = None /\
      r_fileName resp = None /\ r_mimeType resp = None /\
      r_message resp = None /\ is_Some (r_error resp))).
Proof.
  destruct (preflight fd) as [e|[file fmt]] eqn:Hg.
  - rewrite (serve_rejected lib fd e Hg).
    destruct (preflight_message fd e Hg) as (msg & ->).
    eexists _, _. split; [reflexivity|]. right.
    repeat split. eauto.
  - rewrite (serve_passed lib fd file fmt Hg). cbv zeta.
    destruct (sharp_new lib _) as [t1|];
      [eexists _, _; split; [reflexivity|]; right; repeat split; eauto|].
    destruct (if opt_truthy _ || opt_truthy _ then _ else _) as [t2|];
      [eexists _, _; split; [reflexivity|]; right; repeat split; eauto|].
    destruct (selected_encoder fmt _) as [enc|];
      [|eexists _, _; split; [reflexivity|]; right; repeat split; eauto].
    destruct (sharp_toBuffer lib _ enc) as [t3|out];
      [eexists _, _; split; [reflexivity|]; right; repeat split; eauto|].
    eexists _, _. split; [reflexivity|]. left. repeat split; eauto.
Qed.

Lemma reported_not_generic (t : Thrown) :
  reported t <> CONVERSION_FAILED /\ reported t <> SERVER_ERROR.
Proof.
  unfold reported, concat. split; intros H; vm_compute in H; discriminate.
Qed.

(** X13: the fallback messages [CONVERSION_FAILED] and [SERVER_ERROR]
    are never returned: every failure is either the message of one of the
    checks made before the file is read, with no call to the library, or
    the message of the error [convertImage] caught behind the prefix
    "Failed to convert image: ", logged by both catch blocks. *)
Theorem convertFile_failure_messages (fd : FormData)
    (resp : ConversionResponse) (w : World) :
  serve lib fd = (Returned resp, w) ->
  success resp = false ->
  r_error resp <> Some CONVERSION_FAILED /\
  r_error resp <> Some SERVER_ERROR /\
  ((exists msg, preflight fd = inl (Some msg) /\ r_error resp = Some msg /\
                w = empty_world)
   \/
   (exists t, r_error resp
              = Some (concat (js "Failed to convert image: ")
                        (message_or t (js "Unknown error"))) /\
              console w = [(image_log, t); (action_log, wrapped t)])).
Proof.
  assert (Hchecks : forall msg, preflight fd = inl (Some msg) ->
                    msg <> CONVERSION_FAILED /\ msg <> SERVER_ERROR).
  { intros msg. unfold preflight. cbv zeta.
    destruct (isValid (validateFile (fd_file fd))) eqn:Hvf; cbn [negb].
    2:{ intros [= Hm].
        destruct (fd_file fd) as [f|].
        - pose proof (validateFile_cases f) as Hc. cbv zeta in Hc.
          destruct Hc
            as [(_ & Hr)|[(_ & _ & Hr)|[(_ & _ & Hr)|(_ & _ & [Hr|[Hr|Hr]])]]];
            rewrite Hr in Hm; cbn [v_error invalid valid] in Hm;
            try discriminate; injection Hm as <-;
            split; intros H; vm_compute in H; discriminate.
        - cbn in Hm. injection Hm as <-.
          split; intros H; vm_compute in H; discriminate. }
    destruct (isValid (validateQuality _)) eqn:Hvq; cbn [negb].
    2:{ rewrite (validateQuality_invalid _ Hvq). intros [= <-].
        split; intros H; vm_compute in H; discriminate. }
    assert (Hfmt : INVALID_FORMAT <> CONVERSION_FAILED /\
                   INVALID_FORMAT <> SERVER_ERROR)
      by (split; intros H; vm_compute in H; discriminate).
    destruct (fd_targetFormat fd) as [fmt|]; [|now intros [= <-]].
    destruct (fd_file fd); [|now intros [= <-]].
    destruct (str_truthy fmt); [discriminate | now intros [= <-]]. }
  assert (Hcaught : forall t cs,
             (Returned (failure (Some (reported t))),
              mkWorld cs [(image_log, t); (action_log, wrapped t)])
             = (Returned resp, w) ->
             r_error resp <> Some CONVERSION_FAILED /\
             r_error resp <> Some SERVER_ERROR /\
             ((exists msg, preflight fd = inl (Some msg) /\
                           r_error resp = Some msg /\ w = empty_world)
              \/
              (exists t, r_error resp
                         = Some (concat (js "Failed to convert image: ")
                                   (message_or t (js "Unknown error"))) /\
                         console w
                         = [(image_log, t); (action_log, wrapped t)]))).
  { intros t cs [= <- <-]. cbn [r_error console failure].
    destruct (reported_not_generic t) as [H1 H2].
    split; [intros [= H]; exact (H1 H)|].
    split; [intros [= H]; exact (H2 H)|]. right. now exists t. }
  destruct (preflight fd) as [e|[file fmt]] eqn:Hg.
  - rewrite (serve_rejected lib fd e Hg).
    destruct (preflight_message fd e Hg) as (msg & ->).
    intros [= <- <-] _. cbn [r_error failure].
    destruct (Hchecks msg eq_refl) as [H1 H2].
    split; [intros [= H]; exact (H1 H)|].
    split; [intros [= H]; exact (H2 H)|]. left. now exists msg.
  - rewrite (serve_passed lib fd file fmt Hg). cbv zeta.
    destruct (sharp_new lib _) as [t1|]; [intros H _; exact (Hcaught _ _ H)|].
    destruct (if opt_truthy _ || opt_truthy _ then _ else _) as [t2|];
      [intros H _; exact (Hcaught _ _ H)|].
    destruct (selected_encoder fmt _) as [enc|];
      [|intros H _; exact (Hcaught _ _ H)].
    destruct (sharp_toBuffer lib _ enc) as [t3|out];
      [intros H _; exact (Hcaught _ _ H)|].
    intros [= <- <-]. discriminate.
Qed.

(** X14: a successful response carries exactly the bytes the library
    returned for the uploaded bytes: the library was asked to encode once,
    as its last call, on an image made from the bytes of the file, and the
    MIME type returned is the one of the format's table. *)
Theorem convertFile_success_trace (fd : FormData)
    (resp : ConversionResponse) (w : World) :
  serve lib fd = (Returned resp, w) ->
  success resp = true ->
  exists file fmt im enc out before,
    preflight fd = inr (file, fmt) /\
    calls w = (before ++ [CallToBuffer im enc])%list /\
    (forall c, In c before -> is_toBuffer c = false) /\
    im_input im = f_bytes file /\
    sharp_toBuffer lib im enc = inr out /\
    r_data resp = Some out /\
    r_mimeType resp = Some (getMimeType fmt) /\
    console w = [].
Proof.
  destruct (preflight fd) as [e|[file fmt]] eqn:Hg.
  - rewrite (serve_rejected lib fd e Hg). intros [= <- <-]. discriminate.
  - rewrite (serve_passed lib fd file fmt Hg). cbv zeta.
    destruct (sharp_new lib _) as [t1|];
      [intros [= <- <-]; discriminate|].
    destruct (if opt_truthy _ || opt_truthy _ then _ else _) as [t2|];
      [intros [= <- <-]; discriminate|].
    destruct (selected_encoder fmt _) as [enc|] eqn:Henc;
      [|intros [= <- <-]; discriminate].
    destruct (sharp_toBuffer lib _ enc) as [t3|out] eqn:Hout;
      [intros [= <- <-]; discriminate|].
    intros [= <- <-] _.
    exists file, fmt.
    eexists _, enc, out,
      (CallSharp (f_bytes file) ::
       (if opt_truthy (parse_optional (fd_width fd))
           || opt_truthy (parse_optional (fd_height fd))
        then [CallResize (parse_optional (fd_width fd))
                (parse_optional (fd_height fd)) (mkResize inside true)]
        else [])).
    split; [reflexivity|]. split; [reflexivity|].
    split; [|split; [|split; [exact Hout|repeat split]]].
    + intros c Hin. destruct (opt_truthy _ || opt_truthy _);
        simpl in Hin; intuition (subst; reflexivity).
    + destruct (opt_truthy _ || opt_truthy _); reflexivity.
Qed.

Lemma head_split_prefix (s seg : jsstring) :
  head (split dot s) = Some seg -> exists rest, s = (seg ++ rest)%list.
Proof.
  revert seg. induction s as [|c s IH]; intros seg; simpl.
  - intros [= <-]. now exists [].
  - destruct (c =? dot); [intros [= <-]; now exists (c :: s)|].
    destruct (split dot s) as [|x segs] eqn:Hs; simpl.
    + intros [= <-]. destruct s; simpl in Hs; [discriminate|].
      destruct (_ =? dot); [discriminate|].
      destruct (split dot s); discriminate.
    + intros [= <-]. destruct (IH x eq_refl) as (rest & ->).
      now exists rest.
Qed.

Lemma head_split_some (s : jsstring) : exists seg, head (split dot s) = Some seg.
Proof.
  destruct s as [|c s]; simpl; [eauto|].
  destruct (c =? dot); [eauto|]. destruct (split dot s); eauto.
Qed.

Lemma member_extension (fmt : jsstring) :
  is_Some (format_of_string fmt) ->
  In (getFileExtension fmt) output_extensions /\
  In (getMimeType fmt) ALLOWED_MIME_TYPES.
Proof.
  intros [f Hf]. apply format_of_string_Some in Hf. subst fmt.
  destruct f; vm_compute; tauto.
Qed.

Lemma count_dots_app (a b : jsstring) :
  count_dots (a ++ b) = (count_dots a + count_dots b)%nat.
Proof.
  induction a as [|c a IH]; [reflexivity|]. simpl. rewrite IH. lia.
Qed.

(** The first segment ends at the first dot. *)
Lemma head_split_first (s seg : jsstring) :
  head (split dot s) = Some seg ->
  s = seg \/ exists rest, s = (seg ++ dot :: rest)%list.
Proof.
  revert seg. induction s as [|c s IH]; intros seg; simpl.
  - intros [= <-]. now left.
  - destruct (c =? dot) eqn:Hc.
    { intros [= <-]. right. exists s. apply N.eqb_eq in Hc. now subst c. }
    destruct (split dot s) as [|x segs] eqn:Hs; simpl.
    + intros [= <-]. destruct s; simpl in Hs; [discriminate|].
      destruct (_ =? dot); [discriminate|].
      destruct (split dot s); discriminate.
    + intros [= <-]. destruct (IH x eq_refl) as [->|(rest & ->)].
      * now left.
      * right. now exists rest.
Qed.

(** X15: the name given to a converted file is the part of the source
    name before its first dot (the whole name when it has no dot)
    followed by the extension [getFileExtension] gives for the target
    format of the request.  It has exactly one dot, is made only of
    characters of [[A-Za-z0-9._-]], and is at most five code units longer
    than the source name; it starts with a dot only when the source name
    is empty. *)
Theorem output_name_shape (fd : FormData) (resp : ConversionResponse)
    (w : World) :
  serve lib fd = (Returned resp, w) ->
  success resp = true ->
  exists file f seg name,
    fd_file fd = Some file /\
    fd_targetFormat fd = Some (format_name f) /\
    existsb is_dot seg = false /\
    (f_name file = seg \/
     exists rest, f_name file = (seg ++ dot :: rest)%list) /\
    name = (seg ++ getFileExtension (format_name f))%list /\
    r_fileName resp = Some name /\
    count_dots name = 1%nat /\
    forallb in_class name = true /\
    (length name <= length (f_name file) + 5)%nat /\
    (starts_with_dot name = true <-> f_name file = []).
Proof.
  intros Hrun Hok.
  destruct (converted_file_name lib fd resp w Hrun Hok)
    as (file & fmt & out & Hg & Hmember & -> & Hname).
  destruct (proj1 (preflight_passed fd file fmt) Hg)
    as (Hfile & Hvf & _ & Htarget & _).
  destruct (validateFile_valid _ Hvf) as (f' & [= <-] & Hvalid & _).
  destruct (validateFile_accepted file Hvalid) as (_ & _ & Hcanon).
  destruct (head_split_some (f_name file)) as (seg & Hseg).
  destruct (head_split_prefix _ _ Hseg) as (rest & Hrest).
  destruct (member_extension fmt Hmember) as [Hext _].
  destruct Hmember as [f Hf]. apply format_of_string_Some in Hf.
  subst fmt.
  pose proof (first_segment_no_dot _ _ Hseg) as Hnodot.
  exists file, f, seg, (seg ++ getFileExtension (format_name f))%list.
  split; [exact Hfile|]. split; [exact Htarget|].
  split; [exact Hnodot|].
  split; [exact (head_split_first _ _ Hseg)|].
  split; [reflexivity|].
  split; [rewrite Hname, Hseg; reflexivity|].
  assert (Hzero : count_dots seg = O).
  { destruct (count_dots seg) eqn:Hn; [reflexivity|].
    assert (existsb is_dot seg = true) by (apply existsb_count_dots; lia).
    congruence. }
  unfold canonical in Hcanon.
  repeat (apply andb_true_iff in Hcanon; destruct Hcanon as [Hcanon ?]).
  match goal with H : negb _ = true |- _ => apply negb_true_iff in H;
                                             rename H into Hstart end.
  rewrite Hrest, forallb_app in Hcanon. apply andb_true_iff in Hcanon.
  destruct Hcanon as [Hsegc _].
  assert (Hextfacts :
            count_dots (getFileExtension (format_name f)) = 1%nat /\
            forallb in_class (getFileExtension (format_name f)) = true /\
            (length (getFileExtension (format_name f)) <= 5)%nat /\
            starts_with_dot (getFileExtension (format_name f)) = true).
  { unfold output_extensions in Hext. simpl in Hext.
    destruct Hext as [<-|[<-|[<-|[<-|[<-|[<-|[]]]]]]];
      repeat split; vm_compute; try reflexivity; lia. }
  destruct Hextfacts as (Hd & Hc & Hl & Hs).
  split; [rewrite count_dots_app, Hzero, Hd; reflexivity|].
  split; [rewrite forallb_app, Hsegc, Hc; reflexivity|].
  split; [rewrite Hrest, !length_app; lia|].
  destruct seg as [|c seg].
  - simpl app. rewrite Hs. split; [|reflexivity]. intros _.
    destruct (f_name file) as [|c' name'] eqn:Hn; [reflexivity|].
    exfalso. simpl in Hseg, Hstart.
    unfold is_dot in Hstart. rewrite Hstart in Hseg.
    destruct (split dot name'); discriminate.
  - simpl. rewrite Hrest in Hstart. simpl in Hstart. rewrite Hstart.
    split; [discriminate|]. rewrite Hrest. discriminate.
Qed.

(** X16: what [convertFile] returns for a successful conversion passes
    the extension check of the validator: the extension of the output name
    is listed for the output MIME type, and that type is in the upload
    allow-list. *)
Theorem converted_output_matches_type (rt : Runtime) (fd : FormData)
    (resp : ConversionResponse) (w : World) :
  lowers_ascii rt ->
  serve lib fd = (Returned resp, w) ->
  success resp = true ->
  exists fileName mimeType,
    r_fileName resp = Some fileName /\
    r_mimeType resp = Some mimeType /\
    Extension.validateFileExtension rt fileName mimeType = Returned valid /\
    In mimeType ALLOWED_MIME_TYPES.
Proof.
  intros Hrt Hrun Hok.
  destruct (converted_file_name lib fd resp w Hrun Hok)
    as (file & fmt & out & Hg & [f Hf] & -> & Hname).
  apply format_of_string_Some in Hf. subst fmt.
  destruct (head_split_some (f_name file)) as (seg & Hseg).
  eexists _, _. split; [exact Hname|]. split; [reflexivity|].
  rewrite Hseg. cbn [template default].
  split; [|destruct f; vm_compute; tauto].
  destruct f;
    match goal with
    | |- context [getFileExtension ?x] =>
        let e := eval vm_compute in (getFileExtension x) in
        change (getFileExtension x) with e
    end;
    match goal with
    | |- context [getMimeType ?x] =>
        let e := eval vm_compute in (getMimeType x) in
        change (getMimeType x) with e
    end;
    unfold concat; change (id seg) with seg;
    match goal with
    | |- Extension.validateFileExtension rt (seg ++ 46 :: ?e) ?m = _ =>
        match eval vm_compute in (Extension.mimeToExtension !! m) with
        | Some ?exts =>
            refine (accepted_last_segment rt (seg ++ 46 :: e) m exts e
                      Hrt _ _ _ _);
              [vm_compute; reflexivity
              |apply last_split_suffix; reflexivity
              |reflexivity
              |vm_compute; tauto]
        end
    end.
Qed.

Lemma toBuffer_call_encoder (fd : FormData) (out : Outcome ConversionResponse)
    (w : World) (im : Image) (enc : Encoder) :
  serve lib fd = (out, w) ->
  In (CallToBuffer im enc) (calls w) ->
  exists file fmt,
    preflight fd = inr (file, fmt) /\
    selected_encoder fmt
      (default DEFAULT_QUALITY (parse_optional (fd_quality fd))) = Some enc.
Proof.
  destruct (preflight fd) as [e|[file fmt]] eqn:Hg.
  - rewrite (serve_rejected lib fd e Hg). intros [= <- <-] [].
  - rewrite (serve_passed lib fd file fmt Hg). cbv zeta.
    destruct (sharp_new lib _) as [t1|].
    { intros [= <- <-] [[=]|[]]. }
    destruct (opt_truthy _ || opt_truthy _).
    + destruct (sharp_resize lib _ _ _ _) as [t2|].
      { intros [= <- <-] [[=]|[[=]|[]]]. }
      destruct (selected_encoder fmt _) as [enc0|] eqn:Henc.
      * destruct (sharp_toBuffer lib _ enc0);
          intros [= <- <-] [[=]|[[=]|[[= <- <-]|[]]]]; eauto.
      * intros [= <- <-] [[=]|[[=]|[]]].
    + destruct (selected_encoder fmt _) as [enc0|] eqn:Henc.
      * destruct (sharp_toBuffer lib _ enc0);
          intros [= <- <-] [[=]|[[= <- <-]|[]]]; eauto.
      * intros [= <- <-] [[=]|[]].
Qed.

Lemma parseInt10_integer (s : jsstring) :
  parseInt10 s = NaN \/ parseInt10 s = PosInf \/ parseInt10 s = NegInf \/
  exists z, parseInt10 s = of_Z z.
Proof.
  unfold parseInt10.
  destruct (match skip_white_space s with
            | 45 :: rest => ((-1)%Z, rest)
            | 43 :: rest => (1%Z, rest)
            | _ => (1%Z, skip_white_space s)
            end) as [sign digits].
  destruct (read_digits None digits) as [n|]; [|now left].
  destruct (round_double n) as [m|]; [eauto 6|].
  destruct (sign <? 0)%Z; auto.
Qed.

Lemma validateQuality_of_Z (z : Z) :
  isValid (validateQuality (Some (of_Z z))) = true -> (1 <= z <= 100)%Z.
Proof.
  unfold of_Z. rewrite validateQuality_Fin.
  destruct (lt _ _) eqn:Hlt; [discriminate|].
  destruct (gt _ _) eqn:Hgt; [discriminate|]. intros _.
  split.
  - destruct (Z_lt_le_dec z 1) as [H|H]; [|exact H].
    exfalso. assert (Ht : lt (Fin (inject_Z z)) (of_N 1) = true).
    { apply lt_Fin_one. change 1%Q with (inject_Z 1).
      now rewrite <- Zlt_Qlt. }
    congruence.
  - destruct (Z_lt_le_dec 100 z) as [H|H]; [|exact H].
    exfalso. assert (Ht : gt (Fin (inject_Z z)) (of_N 100) = true).
    { apply gt_Fin_hundred. change 100%Q with (inject_Z 100).
      now rewrite <- Zlt_Qlt. }
    congruence.
Qed.

Lemma request_quality_cases (fd : FormData) (file : File) (fmt : jsstring) :
  preflight fd = inr (file, fmt) ->
  let quality := default DEFAULT_QUALITY (parse_optional (fd_quality fd)) in
  (exists n : N, 1 <= n <= 100 /\ quality = of_N n /\
                 (fd_quality fd = None -> n = 90))
  \/
  (quality = NaN /\
   exists s, fd_quality fd = Some s /\ s <> [] /\ parseInt10 s = NaN).
Proof.
  intros Hg. cbv zeta.
  destruct (proj1 (preflight_passed fd file fmt) Hg)
    as (_ & _ & Hvq & _ & _).
  unfold parse_optional in *.
  destruct (fd_quality fd) as [s|].
  2:{ left. exists 90. cbn [default].
      split; [lia|]. split; reflexivity. }
  destruct (str_truthy s) eqn:Hs.
  2:{ left. exists 90. cbn [default].
      split; [lia|]. split; reflexivity. }
  cbn [default].
  destruct (parseInt10_integer s) as [Hnan|[Hinf|[Hinf|[z Hz]]]].
  - right. rewrite Hnan. split; [reflexivity|]. exists s.
    repeat split; [|exact Hnan]. intros ->. discriminate.
  - rewrite Hinf in Hvq. discriminate.
  - rewrite Hinf in Hvq. discriminate.
  - left. rewrite Hz in *. apply validateQuality_of_Z in Hvq.
    exists (Z.to_N z). split; [lia|]. split; [|discriminate].
    unfold of_N, of_Z. rewrite Z2N.id by lia. reflexivity.
Qed.

(** X17: the quality an encoder receives is the number read from the
    quality field, or 90 when the field is absent or empty.  It is an
    integer from 1 to 100 or NaN, and it is NaN exactly when the quality
    text is not empty and does not start with a number, a text the
    quality check lets through. *)
Theorem encoder_quality_values (fd : FormData)
    (out : Outcome ConversionResponse) (w : World) (im : Image)
    (enc : Encoder) (q : number) :
  serve lib fd = (out, w) ->
  In (CallToBuffer im enc) (calls w) ->
  encoder_quality enc = Some q ->
  q = default DEFAULT_QUALITY (parse_optional (fd_quality fd)) /\
  (parse_optional (fd_quality fd) = None -> q = of_N 90) /\
  (forall s, fd_quality fd = Some s -> s <> [] -> q = parseInt10 s) /\
  ((exists n : N, 1 <= n <= 100 /\ q = of_N n) \/ q = NaN) /\
  (q = NaN <->
   exists s, fd_quality fd = Some s /\ s <> [] /\ parseInt10 s = NaN).
Proof.
  intros Hrun Hin Hq.
  destruct (toBuffer_call_encoder fd out w im enc Hrun Hin)
    as (file & fmt & Hg & Henc).
  pose proof (selected_encoder_quality _ _ _ _ Henc Hq) as ->.
  pose proof (request_quality_cases fd file fmt Hg) as Hcases.
  cbv zeta in Hcases.
  split; [reflexivity|].
  split; [intros ->; reflexivity|].
  split.
  { intros s -> Hne. unfold parse_optional.
    destruct s; [contradiction | reflexivity]. }
  split.
  { destruct Hcases as [(n & Hn & Hqn & _)|(Hnan & _)];
      [left; now exists n | now right]. }
  split.
  - intros Hnan.
    destruct Hcases as [(n & _ & Hqn & _)|(_ & Hs)]; [|exact Hs].
    rewrite Hqn in Hnan. discriminate.
  - intros (s & Hs & Hne & Hnan). rewrite Hs. unfold parse_optional.
    destruct s; [contradiction|]. cbn [str_truthy default]. exact Hnan.
Qed.

Lemma preflight_with_quality (fd : FormData) (q1 q2 : option jsstring) :
  isValid (validateQuality (parse_optional q1)) = true ->
  isValid (validateQuality (parse_optional q2)) = true ->
  preflight (with_quality fd q1) = preflight (with_quality fd q2).
Proof.
  intros H1 H2. unfold preflight, with_quality. cbv zeta.
  cbn [fd_file fd_quality fd_targetFormat]. now rewrite H1, H2.
Qed.

(** X18: for the targets [png] and [gif] the quality has no effect: two
    forms that differ only in a quality that passes the check get the same
    response through the same calls to the library. *)
Theorem quality_ignored_for_png_and_gif (fd : FormData)
    (q1 q2 : option jsstring) :
  fd_targetFormat fd = Some (js "png") \/
  fd_targetFormat fd = Some (js "gif") ->
  isValid (validateQuality (parse_optional q1)) = true ->
  isValid (validateQuality (parse_optional q2)) = true ->
  serve lib (with_quality fd q1) = serve lib (with_quality fd q2).
Proof.
  intros Hfmt H1 H2.
  pose proof (preflight_with_quality fd q1 q2 H1 H2) as Hpre.
  destruct (preflight (with_quality fd q1)) as [e|[file fmt]] eqn:Hg1.
  - rewrite (serve_rejected lib _ e Hg1).
    symmetry in Hpre. now rewrite (serve_rejected lib _ e Hpre).
  - symmetry in Hpre.
    rewrite (serve_passed lib _ file fmt Hg1).
    rewrite (serve_passed lib _ file fmt Hpre). cbv zeta.
    destruct (proj1 (preflight_passed _ file fmt) Hg1)
      as (_ & _ & _ & Htarget & _).
    cbn [with_quality fd_targetFormat fd_width fd_height fd_quality] in *.
    assert (Henc : forall x y,
               selected_encoder fmt x = selected_encoder fmt y).
    { intros x y. rewrite Htarget in Hfmt.
      destruct Hfmt as [[= ->]|[= ->]]; reflexivity. }
    rewrite (Henc _ (default DEFAULT_QUALITY (parse_optional q2))).
    reflexivity.
Qed.

(** X19: a [webp] encoder is asked for lossless output exactly when the
    quality is 100 and for near-lossless output exactly when it is above
    90, so lossless implies near-lossless, and a form without quality gets
    neither. *)
Theorem webp_lossless_policy (fd : FormData)
    (out : Outcome ConversionResponse) (w : World) (im : Image)
    (q : number) (lossless nearLossless : bool) (effort : N) :
  serve lib fd = (out, w) ->
  In (CallToBuffer im (WebpEncoder q lossless nearLossless effort))
     (calls w) ->
  (lossless = true <-> q = of_N 100) /\
  (nearLossless = true <->
   exists n : N, 90 < n <= 100 /\ q = of_N n) /\
  (lossless = true -> nearLossless = true) /\
  (fd_quality fd = None -> lossless = false /\ nearLossless = false).
Proof.
  intros Hrun Hin.
  destruct (toBuffer_call_encoder fd out w im _ Hrun Hin)
    as (file & fmt & Hg & Henc).
  assert (Hlit : lossless
                 = num_eqb q (of_N 100) /\ nearLossless = gt q (of_N 90) /\
                 q = default DEFAULT_QUALITY (parse_optional (fd_quality fd))).
  { revert Henc. unfold selected_encoder.
    destruct (format_of_string fmt) as [[]|]; intros [= <- <- <-].
    repeat split. }
  destruct Hlit as (-> & -> & ->).
  assert (Hinj : forall a b : N, of_N a = of_N b -> a = b).
  { intros a b [= H]. lia. }
  assert (Heq : forall n : N, num_eqb (of_N n) (of_N 100) = true <-> n = 100).
  { intros n. unfold num_eqb, of_N. rewrite Qeq_bool_iff.
    rewrite inject_Z_injective. lia. }
  assert (Hgt : forall n : N, gt (of_N n) (of_N 90) = true <-> 90 < n).
  { intros n. unfold gt, lt, of_N. rewrite negb_true_iff.
    rewrite <- not_true_iff_false, Qle_bool_iff, <- Zle_Qle. lia. }
  destruct (request_quality_cases fd file fmt Hg)
    as [(n & Hn & Hq & Hdef)|(Hq & _)]; cbv zeta in Hq; rewrite Hq.
  - split; [|split; [|split]].
    + rewrite Heq. split; [now intros ->|]. intros H. now apply Hinj in H.
    + rewrite Hgt. split.
      * intros H. exists n. split; [lia | reflexivity].
      * intros (m & Hm & H). apply Hinj in H. lia.
    + rewrite Heq, Hgt. lia.
    + intros Hnone. specialize (Hdef Hnone). subst n. split; reflexivity.
  - simpl. split; [|split; [|split]].
    + split; discriminate.
    + split; [discriminate|]. intros (m & _ & H). discriminate.
    + discriminate.
    + intros _. split; reflexivity.
Qed.

End PipelineMore.

(** ** Numbers sent as text *)

Section NumberRoundTrip.

Import NumberText.

Lemma read_digits_step (acc : option N) (k : N) (s : jsstring) :
  k <= 9 ->
  read_digits acc ((48 + k) :: s)
  = read_digits (Some (10 * default 0 acc + k)) s.
Proof.
  intros Hk. cbn [read_digits]. unfold is_digit.
  replace (48 <=? 48 + k) with true by (symmetry; apply N.leb_le; lia).
  replace (48 + k <=? 57) with true by (symmetry; apply N.leb_le; lia).
  cbn [andb]. do 2 f_equal. lia.
Qed.

Ltac read_one_digit k :=
  match goal with
  | |- read_digits ?acc (js (String ?c ?s)) = _ =>
      change (js (String c s)) with ((48 + k) :: js s);
      rewrite (read_digits_step acc k (js s)) by lia
  end.

Lemma read_digits_acc (d : Decimal.uint) (acc : positive) :
  read_digits (Some (N.pos acc)) (js (NilEmpty.string_of_uint d))
  = Some (N.pos (Pos.of_uint_acc d acc)).
Proof.
  revert acc.
  induction d as [|d IH|d IH|d IH|d IH|d IH|d IH|d IH|d IH|d IH|d IH];
    intros acc; cbn [NilEmpty.string_of_uint Pos.of_uint_acc];
    [reflexivity
    |read_one_digit 0|read_one_digit 1|read_one_digit 2|read_one_digit 3
    |read_one_digit 4|read_one_digit 5|read_one_digit 6|read_one_digit 7
    |read_one_digit 8|read_one_digit 9];
    rewrite <- IH; do 2 f_equal; cbn [default]; unfold id; lia.
Qed.

Lemma read_digits_of_uint (acc : option N) (d : Decimal.uint) :
  default 0 acc = 0 -> d <> Decimal.Nil ->
  read_digits acc (js (NilEmpty.string_of_uint d)) = Some (Pos.of_uint d).
Proof.
  revert acc.
  induction d as [|d IH|d IH|d IH|d IH|d IH|d IH|d IH|d IH|d IH|d IH];
    intros acc Hacc Hnil; [contradiction|..];
    cbn [NilEmpty.string_of_uint Pos.of_uint];
    [read_one_digit 0|read_one_digit 1|read_one_digit 2|read_one_digit 3
    |read_one_digit 4|read_one_digit 5|read_one_digit 6|read_one_digit 7
    |read_one_digit 8|read_one_digit 9];
    rewrite Hacc;
    try (rewrite <- (read_digits_acc d); reflexivity).
  destruct d; [reflexivity|..]; apply IH; try reflexivity; discriminate.
Qed.

Lemma parseInt10_digit_start (c : code_unit) (rest : jsstring) :
  is_digit c = true ->
  parseInt10 (c :: rest)
  = match read_digits None (c :: rest) with
    | None => NaN
    | Some n =>
        match round_double n with
        | Some m => of_Z (1 * Z.of_N m)
        | None => PosInf
        end
    end.
Proof.
  unfold is_digit. intros H. apply andb_true_iff in H.
  destruct H as [Hlo Hhi]. apply N.leb_le in Hlo, Hhi.
  assert (Hc : c = 48 \/ c = 49 \/ c = 50 \/ c = 51 \/ c = 52 \/ c = 53 \/
               c = 54 \/ c = 55 \/ c = 56 \/ c = 57) by lia.
  clear Hlo Hhi.
  repeat (destruct Hc as [->|Hc]; [reflexivity|]). subst c. reflexivity.
Qed.

Lemma round_double_exact (n : N) : n <= 2 ^ 53 -> round_double n = Some n.
Proof.
  intros Hn. destruct (N.eq_dec n (2 ^ 53)) as [->|Hne];
    [vm_compute; reflexivity|].
  unfold round_double.
  replace (n <? 2 ^ 53) with true by (symmetry; apply N.ltb_lt; lia).
  reflexivity.
Qed.

(** The decimal text of an integer up to 2^53 is read back by
    [parseInt]. *)
Lemma parseInt10_nat_to_string (n : N) :
  n <= 2 ^ 53 -> parseInt10 (nat_to_string n) = of_N n.
Proof.
  intros Hbound.
  unfold nat_to_string, NilZero.string_of_uint.
  destruct (N.to_uint n) as [|d|d|d|d|d|d|d|d|d|d] eqn:Hd.
  { rewrite <- (DecimalN.Unsigned.of_to n), Hd. reflexivity. }
  all: assert (Hnil : N.to_uint n <> Decimal.Nil) by (rewrite Hd; discriminate).
  all: pose proof (read_digits_of_uint None (N.to_uint n) eq_refl Hnil)
    as Hread.
  all: rewrite (DecimalN.Unsigned.of_to n : Pos.of_uint _ = n) in Hread.
  all: rewrite Hd in Hread.
  all: cbn [NilEmpty.string_of_uint] in *.
  all: match goal with
       | |- parseInt10 (js (String ?c ?s)) = _ =>
           change (js (String c s)) with (N_of_ascii c :: js s) in *;
           rewrite parseInt10_digit_start by reflexivity
       end.
  all: match goal with
       | |- match ?x with _ => _ end = _ =>
           replace x with (Some n) by (symmetry; exact Hread)
       end.
  all: rewrite (round_double_exact n Hbound).
  all: unfold of_Z, of_N; do 2 f_equal; lia.
Qed.

End NumberRoundTrip.

(** ** The page and its components *)

Section ClientSide.

Import NumberText Client.

Lemma accepted_dimension (value : jsstring) :
  negb (isNaN (parseInt10 value)) && gt (parseInt10 value) (of_N 0)
  = stored_dimension (Some (parseInt10 value)).
Proof.
  destruct (parseInt10_integer value) as [->|[->|[->|[z ->]]]];
    try reflexivity.
  unfold stored_dimension, is_integer, of_Z, gt. cbn [isNaN negb andb].
  now rewrite Qfloor_Z, Qeq_bool_refl.
Qed.

(** X20: the width and height of the resize options are always absent,
    a positive integer, or Infinity: the page starts without dimensions
    and every handler of [ImageResizer] keeps this.  Each of the two
    dimension fields takes the number [parseInt] reads at the start of the
    text when it is positive, is cleared by the empty text, and leaves the
    options untouched for any other text.  Infinity is really stored: it
    is what a text of 310 digits is read as, and it is not a positive
    integer. *)
Theorem ImageResizer_keeps_dimensions (options : ResizeOptions)
    (value : jsstring) :
  dimensions_ok initial_resize = true /\
  (dimensions_ok options = true ->
   dimensions_ok (handleEnabledToggle options) = true /\
   dimensions_ok (handleAspectRatioToggle options) = true /\
   (forall o', handleWidthChange options value = Some o' ->
               dimensions_ok o' = true) /\
   (forall o', handleHeightChange options value = Some o' ->
               dimensions_ok o' = true)) /\
  (stored_dimension (Some (parseInt10 value)) = true ->
   handleWidthChange options value
   = Some (mkResizeOptions (enabled options) (Some (parseInt10 value))
             (height options) (maintainAspectRatio options)) /\
   handleHeightChange options value
   = Some (mkResizeOptions (enabled options) (width options)
             (Some (parseInt10 value)) (maintainAspectRatio options))) /\
  (value = [] ->
   handleWidthChange options value
   = Some (mkResizeOptions (enabled options) None (height options)
             (maintainAspectRatio options)) /\
   handleHeightChange options value
   = Some (mkResizeOptions (enabled options) (width options) None
             (maintainAspectRatio options))) /\
  (stored_dimension (Some (parseInt10 value)) = false -> value <> [] ->
   handleWidthChange options value = None /\
   handleHeightChange options value = None) /\
  (handleWidthChange options long_digits
   = Some (mkResizeOptions (enabled options) (Some PosInf)
             (height options) (maintainAspectRatio options)) /\
   handleHeightChange options long_digits
   = Some (mkResizeOptions (enabled options) (width options)
             (Some PosInf) (maintainAspectRatio options)) /\
   positive_integer (Some PosInf) = false).
Proof.
  split; [reflexivity|].
  assert (Hlong : parseInt10 long_digits = PosInf)
    by (vm_compute; reflexivity).
  unfold handleWidthChange, handleHeightChange. cbv zeta.
  rewrite Hlong, accepted_dimension. clear Hlong.
  split; [|split; [|split; [|split]]].
  - unfold dimensions_ok. intros Hok. apply andb_true_iff in Hok.
    destruct Hok as [Hw Hh].
    split; [cbn; now rewrite Hw, Hh|].
    split; [cbn; now rewrite Hw, Hh|].
    destruct (stored_dimension (Some (parseInt10 value))) eqn:Hp.
    + split; intros o' [= <-]; cbn [width height];
        rewrite Hp, ?Hw, ?Hh; reflexivity.
    + destruct (str_eqb value []); split; intros o'; try discriminate;
        intros [= <-]; cbn [width height]; rewrite ?Hw, ?Hh; reflexivity.
  - intros ->. split; reflexivity.
  - intros ->. split; reflexivity.
  - intros -> Hne. unfold str_eqb.
    rewrite bool_decide_eq_false_2 by exact Hne. split; reflexivity.
  - repeat split.
Qed.

Lemma validator_messages_not_empty (file : option File) (msg : jsstring) :
  validateFile file = invalid msg -> str_truthy msg = true.
Proof.
  destruct file as [f|]; [|now intros [= <-]].
  pose proof (validateFile_cases f) as Hc. cbv zeta in Hc.
  destruct Hc
    as [(_ & Hr)|[(_ & _ & Hr)|[(_ & _ & Hr)|(_ & _ & [Hr|[Hr|Hr]])]]];
    rewrite Hr; try discriminate; now intros [= <-].
Qed.

(** X21: the upload component applies the server's file check: it hands
    a file to the page exactly when [validateFile] accepts it, and
    otherwise shows the very message the server would return for it. *)
Theorem handleFile_agrees_with_server (lib : Sharp) (file : File) :
  (handleFile file = inr file <-> validateFile (Some file) = valid) /\
  (forall msg, handleFile file = inl msg ->
     validateFile (Some file) = invalid msg /\
     forall fd, fd_file fd = Some file ->
       serve lib fd = (Returned (failure (Some msg)), empty_world)) /\
  (forall f, handleFile file = inr f -> f = file).
Proof.
  unfold handleFile. cbv zeta.
  destruct (isValid (validateFile (Some file))) eqn:Hv; cbn [negb].
  - destruct (validateFile_valid _ Hv) as (f & [= <-] & Hvalid & _).
    split; [tauto|]. split; [discriminate|]. now intros f [= <-].
  - destruct (validateFile_invalid_message _ Hv) as (m & Hm).
    pose proof (validator_messages_not_empty _ _ Hm) as Hne.
    rewrite Hm. cbn [v_error invalid or_else]. rewrite Hne.
    split; [split; discriminate|]. split; [|discriminate].
    intros msg [= <-]. split; [reflexivity|].
    intros fd Hfd. apply serve_rejected. unfold preflight. cbv zeta.
    rewrite Hfd, Hm. reflexivity.
Qed.

Lemma toString_of_N (rt : Runtime) (n : N) :
  n <= 2 ^ 53 -> toString rt (of_N n) = nat_to_string n.
Proof.
  intros Hn. unfold toString, of_N.
  rewrite Qfloor_Z, Qeq_bool_refl. cbn [andb].
  assert (Hsmall : Qle_bool (Qabs (inject_Z (Z.of_N n))) (inject_Z (2 ^ 53))
                   = true).
  { rewrite Qle_bool_iff.
    unfold Qabs, inject_Z. rewrite Z.abs_eq by lia.
    fold (inject_Z (Z.of_N n)). fold (inject_Z (2 ^ 53)).
    rewrite <- Zle_Qle.
    change (2 ^ 53)%Z with (Z.of_N (2 ^ 53)). lia. }
  rewrite Hsmall.
  replace (Z.of_N n <? 0)%Z with false by (symmetry; apply Z.ltb_ge; lia).
  now rewrite N2Z.id.
Qed.

Lemma nat_to_string_not_empty (n : N) : str_truthy (nat_to_string n) = true.
Proof.
  unfold nat_to_string, NilZero.string_of_uint.
  destruct (N.to_uint n); reflexivity.
Qed.

Lemma sent_number (rt : Runtime) (n : N) :
  n <= 2 ^ 53 ->
  parse_optional (Some (toString rt (of_N n))) = Some (of_N n).
Proof.
  intros Hn. unfold parse_optional.
  rewrite (toString_of_N rt n Hn), nat_to_string_not_empty.
  now rewrite parseInt10_nat_to_string.
Qed.

Lemma sent_dimension (rt : Runtime) (x : option number) :
  safe_dimension x ->
  parse_optional
    (if opt_truthy x then option_map (toString rt) x else None) = x.
Proof.
  destruct x as [v|]; [|reflexivity].
  intros (k & Hk & ->).
  assert (Htruthy : opt_truthy (Some (of_N k)) = true).
  { unfold opt_truthy, num_truthy, of_N. rewrite negb_true_iff.
    apply not_true_iff_false. rewrite Qeq_bool_iff.
    change 0%Q with (inject_Z 0). rewrite inject_Z_injective. lia. }
  rewrite Htruthy. cbn [option_map]. apply sent_number. lia.
Qed.

(** X22: what the page sends is what the server reads: for a quality
    and dimensions that are integers up to 2^53, the server action parses
    the submitted fields back to the quality of the page and, when resize
    is enabled, to its width and height; with resize disabled it reads no
    width and no height, even if the page still holds some. *)
Theorem page_settings_reach_server (rt : Runtime) (st : PageState)
    (file : File) (format : jsstring) (q : N) :
  quality st = of_N q -> q <= 2 ^ 53 ->
  safe_dimension (width (resizeOptions st)) ->
  safe_dimension (height (resizeOptions st)) ->
  let form := build_form rt file format st in
  fd_file form = Some file /\
  fd_targetFormat form = Some format /\
  parse_optional (fd_quality form) = Some (quality st) /\
  parse_optional (fd_width form)
  = (if enabled (resizeOptions st) then width (resizeOptions st) else None) /\
  parse_optional (fd_height form)
  = (if enabled (resizeOptions st) then height (resizeOptions st) else None).
Proof.
  intros Hq Hbound Hw Hh. cbv zeta. unfold build_form. cbv zeta.
  cbn [fd_file fd_targetFormat fd_quality fd_width fd_height].
  split; [reflexivity|]. split; [reflexivity|].
  split; [rewrite Hq; now apply sent_number|].
  destruct (enabled (resizeOptions st)); cbn [andb].
  - split; now apply sent_dimension.
  - split; reflexivity.
Qed.

Lemma resize_call_needs_dimension (lib : Sharp) (fd : FormData)
    (out : Outcome ConversionResponse) (w : World)
    (wd ht : option number) (o : Effects.ResizeOptions) :
  serve lib fd = (out, w) ->
  In (CallResize wd ht o) (calls w) ->
  opt_truthy (parse_optional (fd_width fd))
  || opt_truthy (parse_optional (fd_height fd)) = true.
Proof.
  destruct (preflight fd) as [e|[file fmt]] eqn:Hg.
  - rewrite (serve_rejected lib fd e Hg). intros [= <- <-] [].
  - rewrite (serve_passed lib fd file fmt Hg). cbv zeta.
    destruct (sharp_new lib _) as [t1|].
    { intros [= <- <-] [[=]|[]]. }
    destruct (opt_truthy _ || opt_truthy _); [reflexivity|].
    destruct (selected_encoder fmt _) as [enc0|].
    + destruct (sharp_toBuffer lib _ enc0);
        intros [= <- <-] [[=]|[[=]|[]]].
    + intros [= <- <-] [[=]|[]].
Qed.

(** X23: with resize disabled the image library is never asked to
    resize, whatever width and height the page still holds. *)
Theorem disabled_resize_never_resizes (rt : Runtime) (lib : Sharp)
    (st : PageState) (out : ConvertOutcome) (w : World) :
  enabled (resizeOptions st) = false ->
  handleConvert rt lib st = (out, w) ->
  forall wd ht o, ~ In (CallResize wd ht o) (calls w).
Proof.
  intros Hoff. unfold handleConvert.
  destruct (selectedFile st) as [file|]; [|intros [= <- <-] wd ht o []].
  destruct (targetFormat st) as [format|]; [|intros [= <- <-] wd ht o []].
  destruct (negb (str_truthy format)); [intros [= <- <-] wd ht o []|].
  destruct (serve lib (build_form rt file format st)) as [res w'] eqn:Hrun.
  intros Hout wd ht o Hin.
  assert (Hw : w' = w).
  { destruct res as [response|err]; [|now injection Hout].
    destruct (success response), (r_data response), (r_fileName response),
      (r_mimeType response);
      try (now injection Hout).
    destruct (str_truthy _ && str_truthy _); now injection Hout. }
  subst w'.
  pose proof (resize_call_needs_dimension lib _ _ _ _ _ _ Hrun Hin) as Hdim.
  unfold build_form in Hdim. cbv zeta in Hdim.
  cbn [fd_width fd_height] in Hdim. rewrite Hoff in Hdim.
  discriminate.
Qed.

Lemma preflight_message_not_empty (fd : FormData) (msg : jsstring) :
  preflight fd = inl (Some msg) -> str_truthy msg = true.
Proof.
  unfold preflight. cbv zeta.
  destruct (isValid (validateFile (fd_file fd))) eqn:Hvf; cbn [negb].
  2:{ destruct (validateFile_invalid_message _ Hvf) as (m & Hm).
      rewrite Hm. intros [= <-].
      exact (validator_messages_not_empty _ _ Hm). }
  destruct (isValid (validateQuality _)) eqn:Hvq; cbn [negb].
  2:{ rewrite (validateQuality_invalid _ Hvq). now intros [= <-]. }
  destruct (fd_targetFormat fd) as [fmt|]; [|now intros [= <-]].
  destruct (fd_file fd); [|now intros [= <-]].
  destruct (str_truthy fmt); [discriminate | now intros [= <-]].
Qed.

Lemma response_fields (lib : Sharp) (fd : FormData)
    (resp : ConversionResponse) (w : World) :
  serve lib fd = (Returned resp, w) ->
  (success resp = true /\
   exists data fileName mimeType,
     r_data resp = Some data /\ r_fileName resp = Some fileName /\
     r_mimeType resp = Some mimeType /\
     str_truthy fileName = true /\ str_truthy mimeType = true)
  \/
  (success resp = false /\
   exists msg, r_error resp = Some msg /\ str_truthy msg = true).
Proof.
  assert (Hcaught : forall t, str_truthy (reported t) = true).
  { intros t. reflexivity. }
  destruct (preflight fd) as [e|[file fmt]] eqn:Hg.
  - rewrite (serve_rejected lib fd e Hg).
    destruct (preflight_message fd e Hg) as (msg & ->).
    intros [= <- <-]. right. split; [reflexivity|]. exists msg.
    split; [reflexivity|]. exact (preflight_message_not_empty fd msg Hg).
  - rewrite (serve_passed lib fd file fmt Hg). cbv zeta.
    destruct (sharp_new lib _) as [t1|];
      [intros [= <- <-]; right; split; [reflexivity|]; eexists;
       split; [reflexivity | apply Hcaught]|].
    destruct (if opt_truthy _ || opt_truthy _ then _ else _) as [t2|];
      [intros [= <- <-]; right; split; [reflexivity|]; eexists;
       split; [reflexivity | apply Hcaught]|].
    destruct (selected_encoder fmt _) as [enc|] eqn:Henc;
      [|intros [= <- <-]; right; split; [reflexivity|]; eexists;
        split; [reflexivity | apply Hcaught]].
    destruct (sharp_toBuffer lib _ enc) as [t3|out];
      [intros [= <- <-]; right; split; [reflexivity|]; eexists;
       split; [reflexivity | apply Hcaught]|].
    intros [= <- <-]. left. split; [reflexivity|].
    eexists _, _, _. repeat split.
    + destruct (head_split_some (f_name file)) as (seg & ->).
      cbn [template default]. unfold id, concat.
      assert (Hm : is_Some (format_of_string fmt)).
      { destruct (format_of_string fmt) eqn:Hf; [eauto|].
        rewrite (proj2 (selected_encoder_None fmt _) Hf) in Henc.
        discriminate. }
      destruct (member_extension fmt Hm) as [Hext _].
      unfold output_extensions in Hext. simpl in Hext.
      destruct Hext as [<-|[<-|[<-|[<-|[<-|[<-|[]]]]]]];
        destruct seg; reflexivity.
    + assert (Hm : is_Some (format_of_string fmt)).
      { destruct (format_of_string fmt) eqn:Hf; [eauto|].
        rewrite (proj2 (selected_encoder_None fmt _) Hf) in Henc.
        discriminate. }
      destruct Hm as [f Hf]. apply format_of_string_Some in Hf. subst fmt.
      destruct f; reflexivity.
Qed.

(** X24: the page downloads exactly when the server action reports
    success, under the name and type the server returned, and otherwise
    shows exactly the server's error message: neither fallback text
    ("Conversion failed", "An unexpected error occurred") is ever
    shown. *)
Theorem handleConvert_outcome (rt : Runtime) (lib : Sharp) (st : PageState)
    (out : ConvertOutcome) (w : World) :
  handleConvert rt lib st = (out, w) ->
  match out with
  | Download data fileName mimeType =>
      exists file format resp,
        selectedFile st = Some file /\ targetFormat st = Some format /\
        serve lib (build_form rt file format st) = (Returned resp, w) /\
        success resp = true /\ r_data resp = Some data /\
        r_fileName resp = Some fileName /\ r_mimeType resp = Some mimeType
  | ShowError msg =>
      (selectedFile st = None /\ w = empty_world /\
       msg = js "Please select a file to convert")
      \/
      (selectedFile st <> None /\ w = empty_world /\
       (targetFormat st = None \/ targetFormat st = Some []) /\
       msg = js "Please select a target format")
      \/
      (exists file format resp,
         selectedFile st = Some file /\ targetFormat st = Some format /\
         serve lib (build_form rt file format st) = (Returned resp, w) /\
         success resp = false /\ r_error resp = Some msg)
  end.
Proof.
  unfold handleConvert.
  destruct (selectedFile st) as [file|];
    [|intros [= <- <-]; left; repeat split].
  destruct (targetFormat st) as [format|];
    [|intros [= <- <-]; right; left; repeat split; [discriminate | tauto]].
  destruct format as [|c format].
  { intros [= <- <-]. right. left. repeat split; [discriminate | tauto]. }
  cbn [str_truthy negb].
  destruct (serve_returns lib (build_form rt file (c :: format) st))
    as (resp & w' & Hrun).
  rewrite Hrun.
  destruct (response_fields lib _ resp w' Hrun)
    as [(Hok & data & fileName & mimeType & Hd & Hn & Hm & Hnt & Hmt)
       |(Hfail & msg & He & Hmsg)].
  - rewrite Hok, Hd, Hn, Hm, Hnt, Hmt. intros [= <- <-].
    exists file, (c :: format), resp. repeat split; assumption.
  - rewrite Hfail, He. cbn [or_else]. rewrite Hmsg.
    intros Hout.
    assert (Hres : out = ShowError msg /\ w = w').
    { destruct (r_data resp), (r_fileName resp), (r_mimeType resp);
        injection Hout as <- <-; split; reflexivity. }
    destruct Hres as [-> ->]. right. right.
    exists file, (c :: format), resp. repeat split; assumption.
Qed.

End ClientSide.

(** ** The added properties on sample inputs *)

Section MoreScenarios.

Lemma ascii_runtime_lowers : lowers_ascii ascii_runtime.
Proof. intros s _. reflexivity. Qed.

Lemma validateFileExtension_suffix_witness :
  Extension.validateFileExtension ascii_runtime (js "evil.exe.PNG")
    (js "image/png") = Returned valid /\
  Extension.validateFileExtension ascii_runtime (js "PNG") (js "image/png")
  = Returned valid.
Proof.
  apply (validateFileExtension_suffix ascii_runtime (js "image/png")
           [js "png"] (js "evil.exe") (js "PNG")).
  - intros s _. reflexivity.
  - vm_compute. reflexivity.
  - reflexivity.
  - vm_compute. left. reflexivity.
Defined.

Lemma validateFileExtension_verdicts_witness :
  (exists exts seg,
      Extension.mimeToExtension !! js "image/png" = Some exts /\
      last (split dot (js "a.png")) = Some seg /\
      In (toLowerCase ascii_runtime seg) exts) /\
  exists t,
    Extension.validateFileExtension ascii_runtime (js "a.png")
      (js "constructor") = Threw t.
Proof.
  split.
  - destruct (proj1 (validateFileExtension_verdicts ascii_runtime
                       (js "a.png") (js "image/png")))
      as (exts & seg & H1 & H2 & H3 & _); [vm_compute; reflexivity|].
    exists exts, seg. repeat split; assumption.
  - apply (proj2 (validateFileExtension_verdicts ascii_runtime
                    (js "a.png") (js "constructor"))).
    split; [vm_compute; tauto|].
    exists (js "png"). split; [vm_compute; reflexivity | vm_compute; discriminate].
Defined.

Lemma validateFileExtension_case_insensitive_witness :
  Extension.validateFileExtension ascii_runtime (js "photo.png")
    (js "image/png")
  = Extension.validateFileExtension ascii_runtime (js "Photo.PNG")
      (js "image/png").
Proof.
  apply (validateFileExtension_case_insensitive ascii_runtime
           (js "Photo.PNG") (js "image/png")).
  - intros s _. reflexivity.
  - reflexivity.
Defined.

Lemma getFileInfo_mirrors_validateFile_witness :
  Info.info_success (Info.getFileInfo ascii_runtime request_two_dots) = true /\
  Info.info_error (Info.getFileInfo ascii_runtime request_two_dots) = None.
Proof.
  destruct (getFileInfo_mirrors_validateFile ascii_runtime permissive
              request_two_dots) as (Hs & _ & Hok).
  split.
  - rewrite Hs. vm_compute. reflexivity.
  - apply Hok. rewrite Hs. vm_compute. reflexivity.
Defined.

Lemma getFileInfo_sizeInMB_witness :
  exists data,
    Info.info_data (Info.getFileInfo ascii_runtime request_two_dots)
    = Some data /\
    Info.sizeInMB data = js "0.00".
Proof.
  eexists. split; [vm_compute; reflexivity|].
  refine (proj2 (proj2 (proj2
            (getFileInfo_sizeInMB ascii_runtime request_two_dots _ eq_refl)))
            _).
  vm_compute. reflexivity.
Defined.

Lemma validateFile_accepts_iff_witness :
  validateFile (Some small_png) = valid /\ ~ In 47 (f_name small_png).
Proof.
  destruct (validateFile_accepts_iff small_png) as [Hiff Hsep].
  assert (Hv : validateFile (Some small_png) = valid).
  { apply Hiff. split; [vm_compute; split; [reflexivity|discriminate]|].
    split; [vm_compute; tauto | vm_compute; reflexivity]. }
  split; [exact Hv | apply (Hsep Hv)].
Defined.

Lemma validation_failure_short_circuits_witness :
  exists msg,
    serve permissive request_quality_150
    = (Returned (failure (Some msg)), empty_world) /\
    msg = QualityOutOfRange.
Proof.
  destruct (validation_failure_short_circuits permissive request_quality_150)
    as (msg & Hrun & _ & Hq).
  - right. vm_compute. reflexivity.
  - exists msg. split; [exact Hrun|]. apply Hq. vm_compute. reflexivity.
Defined.

Lemma convertFile_failure_messages_witness :
  exists resp w,
    serve (failing (js "boom")) request_two_dots = (Returned resp, w) /\
    r_error resp <> Some CONVERSION_FAILED /\
    r_error resp = Some (js "Failed to convert image: boom").
Proof.
  eexists _, _. split; [vm_compute; reflexivity|].
  split; [|vm_compute; reflexivity].
  refine (proj1 (convertFile_failure_messages (failing (js "boom"))
                   request_two_dots _ _ eq_refl _)).
  reflexivity.
Defined.

Lemma convertFile_success_trace_witness :
  exists resp w,
    serve permissive request_two_dots = (Returned resp, w) /\
    console w = [] /\
    exists im enc out,
      sharp_toBuffer permissive im enc = inr out /\ r_data resp = Some out.
Proof.
  eexists _, _. split; [vm_compute; reflexivity|].
  destruct (convertFile_success_trace permissive request_two_dots _ _
              eq_refl eq_refl)
    as (file & fmt & im & enc & out & before & _ & _ & _ & _ & Hout
        & Hdata & _ & Hlog).
  split; [exact Hlog|]. exists im, enc, out. split; assumption.
Defined.

Lemma output_name_shape_witness :
  exists resp w,
    serve permissive request_two_dots = (Returned resp, w) /\
    exists seg name,
      existsb is_dot seg = false /\
      (f_name small_png = seg \/
       exists rest, f_name small_png = (seg ++ dot :: rest)%list) /\
      r_fileName resp = Some name /\ count_dots name = 1%nat.
Proof.
  eexists _, _. split; [vm_compute; reflexivity|].
  destruct (output_name_shape permissive request_two_dots _ _
              eq_refl eq_refl)
    as (file & f & seg & name & [= <-] & _ & Hnodot & Hcut & _ & Hname
        & Hdots & _).
  exists seg, name. repeat split; assumption.
Defined.

Lemma converted_output_matches_type_witness :
  exists resp w,
    serve permissive request_two_dots = (Returned resp, w) /\
    exists fileName mimeType,
      r_fileName resp = Some fileName /\ r_mimeType resp = Some mimeType /\
      Extension.validateFileExtension ascii_runtime fileName mimeType
      = Returned valid.
Proof.
  eexists _, _. split; [vm_compute; reflexivity|].
  destruct (converted_output_matches_type permissive ascii_runtime
              request_two_dots _ _ ascii_runtime_lowers eq_refl eq_refl)
    as (fileName & mimeType & Hn & Hm & Hv & _).
  exists fileName, mimeType. repeat split; assumption.
Defined.

Lemma encoder_quality_values_witness :
  exists out w im,
    serve permissive request_quality_text = (out, w) /\
    In (CallToBuffer im (JpegEncoder NaN true true)) (calls w) /\
    (NaN = NaN <->
     exists s, fd_quality request_quality_text = Some s /\ s <> [] /\
               parseInt10 s = NaN).
Proof.
  eexists _, _, _. split; [vm_compute; reflexivity|].
  assert (Hin : In (CallToBuffer (mkImage [1; 2; 3] None)
                      (JpegEncoder NaN true true))
                   (calls (snd (serve permissive request_quality_text))))
    by (vm_compute; right; left; reflexivity).
  split; [exact Hin|].
  exact (proj2 (proj2 (proj2 (proj2
           (encoder_quality_values permissive request_quality_text _ _ _ _
              _ eq_refl Hin eq_refl))))).
Defined.

Lemma quality_ignored_for_png_and_gif_witness :
  serve permissive (with_quality request_to_png (Some (js "10")))
  = serve permissive (with_quality request_to_png (Some (js "95"))).
Proof.
  apply (quality_ignored_for_png_and_gif permissive request_to_png).
  - left. reflexivity.
  - vm_compute. reflexivity.
  - vm_compute. reflexivity.
Defined.

Lemma webp_lossless_policy_witness :
  exists out w im,
    serve permissive request_webp_lossless = (out, w) /\
    In (CallToBuffer im (WebpEncoder (of_N 100) true true 6)) (calls w) /\
    (true = true <-> of_N 100 = of_N 100).
Proof.
  eexists _, _, _. split; [vm_compute; reflexivity|].
  assert (Hin : In (CallToBuffer (mkImage [1; 2; 3] None)
                      (WebpEncoder (of_N 100) true true 6))
                   (calls (snd (serve permissive request_webp_lossless))))
    by (vm_compute; right; left; reflexivity).
  split; [exact Hin|].
  exact (proj1 (webp_lossless_policy permissive request_webp_lossless _ _ _ _
                  _ _ _ eq_refl Hin)).
Defined.

Lemma ImageResizer_keeps_dimensions_witness :
  Client.handleWidthChange initial_resize (js "12px")
  = Some (Client.mkResizeOptions false (Some (of_N 12)) None true) /\
  Client.handleHeightChange initial_resize (js "-3") = None /\
  dimensions_ok (Client.handleEnabledToggle initial_resize) = true.
Proof.
  destruct (ImageResizer_keeps_dimensions initial_resize (js "12px"))
    as (Hinit & Hkeeps & Hset & _).
  destruct (ImageResizer_keeps_dimensions initial_resize (js "-3"))
    as (_ & _ & _ & _ & Hkeep & _).
  split; [|split].
  - refine (proj1 (Hset _)). vm_compute. reflexivity.
  - refine (proj2 (Hkeep _ _)); [vm_compute; reflexivity|].
    vm_compute. discriminate.
  - exact (proj1 (Hkeeps Hinit)).
Defined.

Lemma page_settings_reach_server_witness :
  parse_optional
    (fd_quality
       (Client.build_form ascii_runtime small_png (js "webp") sample_page))
  = Some (of_N 80) /\
  parse_optional
    (fd_width
       (Client.build_form ascii_runtime small_png (js "webp") sample_page))
  = Some (of_N 50).
Proof.
  destruct (page_settings_reach_server ascii_runtime sample_page small_png
              (js "webp") 80) as (_ & _ & Hq & Hw & _).
  - reflexivity.
  - vm_compute. discriminate.
  - exists 50. split; [vm_compute; split; [reflexivity|discriminate]|].
    reflexivity.
  - exact I.
  - split; [exact Hq | exact Hw].
Defined.

Lemma disabled_resize_never_resizes_witness :
  exists out w,
    Client.handleConvert ascii_runtime permissive sample_page_resize_off
    = (out, w) /\
    calls w
    = [CallSharp [1; 2; 3];
       CallToBuffer (mkImage [1; 2; 3] None)
         (WebpEncoder (of_N 80) false false 6)] /\
    forall wd ht o, ~ In (CallResize wd ht o) (calls w).
Proof.
  eexists _, _. split; [vm_compute; reflexivity|].
  split; [reflexivity|].
  exact (disabled_resize_never_resizes ascii_runtime permissive
           sample_page_resize_off _ _ eq_refl eq_refl).
Defined.

Lemma handleConvert_outcome_witness :
  exists w resp,
    Client.handleConvert ascii_runtime permissive sample_page
    = (Client.Download [1; 2; 3] (js "photo.webp") (js "image/webp"), w) /\
    serve permissive
      (Client.build_form ascii_runtime small_png (js "webp") sample_page)
    = (Returned resp, w) /\
    success resp = true.
Proof.
  eexists _. 
  assert (Hrun : Client.handleConvert ascii_runtime permissive sample_page
                 = (Client.Download [1; 2; 3] (js "photo.webp")
                      (js "image/webp"),
                    snd (Client.handleConvert ascii_runtime permissive
                           sample_page)))
    by (vm_compute; reflexivity).
  destruct (handleConvert_outcome ascii_runtime permissive sample_page _ _ Hrun)
    as (file & format & resp & Hf & Hfmt & Hserve & Hok & _).
  injection Hf as <-. injection Hfmt as <-.
  exists resp. split; [exact Hrun|]. split; [exact Hserve | exact Hok].
Defined.

End MoreScenarios.
